(** * TeleDoom: the session registry, the button manager and the frame loop

    A shallow embedding of [src/doom/teledoom.py].  Python integers are [Z],
    strings are [string], lists are [list]; the attributes of an object are
    the fields of a record and every method takes the record and returns the
    new one together with what it did to the outside world (queue puts,
    prompts, log records, calls on the game and on the stream), in order. *)

From Stdlib Require Import ZArith QArith.
From stdpp Require Import base list strings.

Open Scope string_scope.
Open Scope Z_scope.

(** ** Python values that travel through the queue *)

(** The second component of a queue item is [None], a caller number or a
    DTMF digit. *)
Inductive value :=
  | VNone
  | VStr (s : string).

Inductive exn :=
  | TypeError
  | IndexError
  | ValueError
  | ZeroDivisionError.

Inductive result (A : Type) :=
  | Ok (a : A)
  | Raise (e : exn).
Arguments Ok {A} a.
Arguments Raise {A} e.

Inductive level := INFO | WARNING | ERROR.

Definition log_record : Type := level * string.

(** ** ButtonManager (lines 206-227) *)

Module ButtonManager.

(** The members of [vzd.Button] the program uses. *)
Inductive Button :=
  | MOVE_LEFT | MOVE_FORWARD | MOVE_RIGHT
  | TURN_LEFT | ATTACK | TURN_RIGHT
  | CROUCH | MOVE_BACKWARD | JUMP
  | SELECT_PREV_WEAPON | USE | SELECT_NEXT_WEAPON.

Definition Button_eqb (a b : Button) : bool :=
  match a, b with
  | MOVE_LEFT, MOVE_LEFT | MOVE_FORWARD, MOVE_FORWARD
  | MOVE_RIGHT, MOVE_RIGHT | TURN_LEFT, TURN_LEFT | ATTACK, ATTACK
  | TURN_RIGHT, TURN_RIGHT | CROUCH, CROUCH
  | MOVE_BACKWARD, MOVE_BACKWARD | JUMP, JUMP
  | SELECT_PREV_WEAPON, SELECT_PREV_WEAPON | USE, USE
  | SELECT_NEXT_WEAPON, SELECT_NEXT_WEAPON => true
  | _, _ => false
  end.

(** A dict literal keeps insertion order, and [BUTTON_LIST] depends on it. *)
Definition BUTTON_MAP : list (string * Button) :=
  [ ("1", MOVE_LEFT);          ("2", MOVE_FORWARD);  ("3", MOVE_RIGHT);
    ("4", TURN_LEFT);          ("5", ATTACK);        ("6", TURN_RIGHT);
    ("7", CROUCH);             ("8", MOVE_BACKWARD); ("9", JUMP);
    ("*", SELECT_PREV_WEAPON); ("0", USE);           ("#", SELECT_NEXT_WEAPON) ].

(** [BUTTON_MAP[key]], [None] when [key not in BUTTON_MAP]. *)
Fixpoint dict_get (d : list (string * Button)) (key : string) : option Button :=
  match d with
  | [] => None
  | (k, b) :: d' => if String.eqb k key then Some b else dict_get d' key
  end.

Definition BUTTON_LIST : list Button := snd <$> BUTTON_MAP.

(** [l.index(b)]: the first position of [b], [None] for [ValueError]. *)
Fixpoint index (l : list Button) (b : Button) : option nat :=
  match l with
  | [] => None
  | x :: l' => if Button_eqb x b then Some O else S <$> index l' b
  end.

Record t := { button_timeout : list Z }.

(** [__init__] *)
Definition init : t := {| button_timeout := (fun _ => 0) <$> BUTTON_LIST |}.

Definition not_found_message (button : string) : string :=
  "Button '" ++ button ++ "' not found in BUTTON_MAP - ignoring".

(** [button_pressed(button, timeout)].  A key that is not a string is in no
    dict of strings, and the concatenation of the warning then raises. *)
Definition button_pressed (self : t) (button : value) (timeout : Z)
  : result (t * list log_record) :=
  match button with
  | VNone => Raise TypeError
  | VStr key =>
      match dict_get BUTTON_MAP key with
      | Some b =>
          match index BUTTON_LIST b with
          | None => Raise ValueError
          | Some i =>
              if bool_decide (i < length (button_timeout self))%nat
              then Ok ({| button_timeout := <[i:=timeout]> (button_timeout self) |}, [])
              else Raise IndexError
          end
      | None => Ok (self, [(WARNING, not_found_message key)])
      end
  end.

(** [get_action()]: decay first, then sample. *)
Definition get_action (self : t) : t * list bool :=
  let decayed := (fun x => Z.max (x - 1) 0) <$> button_timeout self in
  ({| button_timeout := decayed |}, (fun x => bool_decide (0 < x)) <$> decayed).

(** [n] calls of [get_action] in a row; the sampled vectors, oldest first. *)
Fixpoint get_actions (n : nat) (self : t) : t * list (list bool) :=
  match n with
  | O => (self, [])
  | S n' =>
      let '(self1, v) := get_action self in
      let '(self2, vs) := get_actions n' self1 in
      (self2, v :: vs)
  end.

(** The button manager after [n] calls of [get_action]. *)
Definition decays (n : nat) (self : t) : t := (get_actions n self).1.

(** The vector that the [k]-th call of [get_action] returns, [k >= 1]. *)
Definition nth_sample (k : nat) (self : t) : list bool :=
  (get_action (decays (k - 1) self)).2.

(** The position in [BUTTON_LIST] of the button of [key]. *)
Definition position (key : string) : option nat :=
  dict_get BUTTON_MAP key ≫= index BUTTON_LIST.

(** The button at position [i] reads active in the samples [1 .. h] and
    inactive in every later one. *)
Definition active_for_exactly (h : Z) (self : t) (i : nat) : Prop :=
  (forall k, (1 <= k)%nat -> Z.of_nat k <= h -> nth_sample k self !! i = Some true)
  /\ (forall k, h < Z.of_nat k -> nth_sample k self !! i = Some false).

End ButtonManager.

(** ** Events and the queue between the two tasks (lines 125-129, 328) *)

Inductive Event :=
  | GOT_CONNECTION
  | NEW_PLAYER
  | NO_PLAYER
  | BUTTON_PRESSED.

#[global] Instance Event_eq_dec : EqDecision Event.
Proof. solve_decision. Defined.

(** What [put] receives and [get] returns: a pair [(Event.X, value)]. *)
Definition item : Type := Event * value.

(** ** Asterisk: the registry of callers (lines 155-204) *)

Module Asterisk.

(** [(caller, channel.id)] *)
Definition session : Type := string * string.

(** What a handler does to the outside world, in program order. *)
Inductive effect :=
  | Put (i : item)
  | OnEvent (channel : string) (name : string)
  | Answer (channel : string)
  | SendSms (to : string) (message : string)
  | Sleep (seconds : Q)
  | Play (channel : string) (media : string).

Record t := {
  simwood : bool;
  playing : option session;
  waiting : list session
}.

(** [__init__] *)
Definition init (simwood : bool) : t :=
  {| simwood := simwood; playing := None; waiting := [] |}.

Definition welcome_sms : string :=
  "Welcome to TeleDoom!  Please go to https://twitch.tv/teledoom to view the action.".

(** Lines 168-180 of [on_start]: the registry is neither read nor written. *)
Definition on_start_greeting (self : t) (caller channel : string) : list effect :=
  [ Put (GOT_CONNECTION, VNone);
    OnEvent channel "ChannelDtmfReceived";
    OnEvent channel "StasisEnd";
    Answer channel ]
  ++ (if simwood self then [SendSms caller welcome_sms] else [])
  ++ [ Sleep (1 # 2);
       Play channel "sound:welcome-to-teledoom";
       Sleep 1;
       Play channel "sound:please-go-to-twitch";
       Sleep 1 ].

(** Lines 181-187 of [on_start]: no [await] separates the test of
    [self.playing] from the assignment. *)
Definition on_start_admit (self : t) (caller channel : string) : t * list effect :=
  match playing self with
  | None =>
      ({| simwood := simwood self;
          playing := Some (caller, channel);
          waiting := waiting self |},
       [ Play channel "sound:you-are-entering-the-game";
         Put (NEW_PLAYER, VStr caller) ])
  | Some _ =>
      ({| simwood := simwood self;
          playing := playing self;
          waiting := (waiting self ++ [(caller, channel)])%list |},
       [ Play channel "sound:you-are-being-placed-in-a-queue" ])
  end.

Definition on_start (self : t) (caller channel : string) : t * list effect :=
  let '(self', effects) := on_start_admit self caller channel in
  (self', (on_start_greeting self caller channel ++ effects)%list).

(** [on_dtmf] *)
Definition on_dtmf (self : t) (channel digit : string) : list effect :=
  match playing self with
  | Some p =>
      if bool_decide (channel = p.2) then [Put (BUTTON_PRESSED, VStr digit)] else []
  | None => []
  end.

(** [on_end]: [self.playing[1]] is evaluated first, also when
    [self.playing] is [None]. *)
Definition on_end (self : t) (channel : string) : result (t * list effect) :=
  match playing self with
  | None => Raise TypeError
  | Some p =>
      if bool_decide (channel = p.2) then
        match waiting self with
        | w0 :: ws =>
            Ok ({| simwood := simwood self; playing := Some w0; waiting := ws |},
                [ Play channel "sound:you-are-entering-the-game";
                  Put (NEW_PLAYER, VStr w0.1) ])
        | [] =>
            Ok ({| simwood := simwood self; playing := None; waiting := [] |},
                [ Put (NO_PLAYER, VNone) ])
        end
      else
        Ok ({| simwood := simwood self;
               playing := playing self;
               waiting := filter (fun x => channel <> x.2) (waiting self) |},
            [])
  end.

(** The two operations on the registry. *)
Inductive op :=
  | Arrive (caller channel : string)
  | Depart (channel : string).

(** A handler that raises leaves the registry as it was: [on_end] raises
    before its first assignment. *)
Definition apply (self : t) (o : op) : t :=
  match o with
  | Arrive caller channel => (on_start self caller channel).1
  | Depart channel =>
      match on_end self channel with
      | Ok (self', _) => self'
      | Raise _ => self
      end
  end.

Definition run (self : t) (ops : list op) : t := fold_left apply ops self.

(** The channel identifiers in the waiting list. *)
Definition waiting_channels (self : t) : list string := snd <$> waiting self.

(** The active caller, if any, followed by the waiting ones. *)
Definition callers (self : t) : list session :=
  match playing self with
  | Some p => p :: waiting self
  | None => waiting self
  end.


(** The callers that arrived and have not left since, oldest first: the
    order of arrival, told without the active slot. *)
Fixpoint arrival_order (present : list session) (ops : list op) : list session :=
  match ops with
  | [] => present
  | Arrive caller channel :: ops' =>
      arrival_order (present ++ [(caller, channel)])%list ops'
  | Depart channel :: ops' =>
      arrival_order (filter (fun x => channel <> x.2) present) ops'
  end.

(** No caller arrives on a channel that is still present. *)
Fixpoint fresh_arrivals (present : list session) (ops : list op) : Prop :=
  match ops with
  | [] => True
  | Arrive caller channel :: ops' =>
      (channel ∉ snd <$> present)
      /\ fresh_arrivals (present ++ [(caller, channel)])%list ops'
  | Depart channel :: ops' =>
      fresh_arrivals (filter (fun x => channel <> x.2) present) ops'
  end.

(** The registry holds the callers [present], the oldest one in the active
    slot, each on a channel of its own. *)
Definition holds (self : t) (present : list session) : Prop :=
  callers self = present
  /\ NoDup (snd <$> present)
  /\ (playing self = None -> waiting self = []).

End Asterisk.

(** ** Doom: the frame loop (lines 229-320) *)

Module Doom.

(** What [Doom.start] does to its collaborators, in program order. *)
Inductive action :=
  | GameInit
  | AdvanceAction
  | NewEpisode
  | IsEpisodeFinished (answer : bool)
  | GetState
  | MakeAction (buttons : list bool)
  | StreamOpen
  | SendFrame (caller : string)
  | StreamClose
  | WaitFor (timeout : Q)
  | Get
  | LogEvent (event : item)
  | Log (record : log_record)
  | LogException (e : exn)
  | LoopStop
  | GameClose.

(** Where the coroutine is suspended. *)
Inductive point :=
  | Polling
  | Getting
  | Draining
  | Stopped.

#[global] Instance point_eq_dec : EqDecision point.
Proof. solve_decision. Defined.

(** The locals of [start], the caller of [self.overlay] and the queue.
    [start], [frames] and [button_manager] are unbound until line 272; they
    are never read before. *)
Record t := {
  overlay_caller : string;
  idle : bool;
  idle_frames_left : Z;
  start_time : Q;
  frames : Z;
  button_manager : ButtonManager.t;
  queue : list item;
  at_ : point
}.

(** What the outside world answers while the coroutine is suspended in one
    queue operation, and up to the next one: the items the handlers put
    meanwhile, whether [wait_for] gives up ([TimeoutError]; with nothing in
    the queue it can only give up), what [is_episode_finished()] says, and
    what [loop.time()] reads at line 272 and at line 292. *)
Record tick := {
  arrivals : list item;
  expires : bool;
  episode_finished : bool;
  clock_start : Q;
  clock : Q
}.

(** [a / b] on two [int]s. *)
Definition true_div (a b : Z) : result Q :=
  if b =? 0 then Raise ZeroDivisionError else Ok (inject_Z a / inject_Z b)%Q.

Section Start.

Variable DOOM_FPS : Z.

(** [Overlay.format_phone_number], which is [phonenumbers] and [re]. *)
Variable format_phone_number : string -> string.

(** [Overlay.set_caller]: what [self.caller] becomes. *)
Definition set_caller (phone_number : value) : string :=
  match phone_number with
  | VNone => "No caller"
  | VStr "" => "No caller"
  | VStr number => format_phone_number number
  end.

(** Lines 313-320, after the [with] block, if any, has been left. *)
Definition stop (self : t) (e : exn) : t * list action :=
  ({| overlay_caller := overlay_caller self; idle := idle self;
      idle_frames_left := idle_frames_left self;
      start_time := start_time self; frames := frames self;
      button_manager := button_manager self; queue := queue self;
      at_ := Stopped |},
   [LogException e; LoopStop; GameClose]).

(** Lines 255-256, up to the [await]. *)
Definition poll (self : t) : t * list action :=
  match true_div 1 DOOM_FPS with
  | Raise e =>
      let '(self', acts) := stop self e in (self', AdvanceAction :: acts)
  | Ok timeout =>
      ({| overlay_caller := overlay_caller self; idle := idle self;
          idle_frames_left := idle_frames_left self;
          start_time := start_time self; frames := frames self;
          button_manager := button_manager self; queue := queue self;
          at_ := Polling |},
       [AdvanceAction; WaitFor timeout])
  end.

(** Lines 247-256, up to the first [await]. *)
Definition boot : t * list action :=
  let '(self, acts) :=
    poll {| overlay_caller := set_caller VNone; idle := true;
            idle_frames_left := 0; start_time := 0%Q; frames := 0;
            button_manager := ButtonManager.init; queue := [];
            at_ := Polling |} in
  (self, GameInit :: acts).

(** Line 292, up to the [await]. *)
Definition drain (self : t) (now : Q) : t * list action :=
  match true_div (frames self) DOOM_FPS with
  | Raise e =>
      let '(self', acts) := stop self e in (self', StreamClose :: acts)
  | Ok elapsed =>
      ({| overlay_caller := overlay_caller self; idle := idle self;
          idle_frames_left := idle_frames_left self;
          start_time := start_time self; frames := frames self;
          button_manager := button_manager self; queue := queue self;
          at_ := Draining |},
       [WaitFor (start_time self + elapsed - now)%Q])
  end.

(** Lines 276-292, from the loop test up to the next [await]. *)
Definition loop_head (self : t) (e : tick) : t * list action :=
  if negb (idle self) || (0 <? idle_frames_left self)%Z then
    let '(bm, acts1) :=
      if episode_finished e
      then (ButtonManager.init, [IsEpisodeFinished true; NewEpisode])
      else (button_manager self, [IsEpisodeFinished false]) in
    let '(self', acts2) :=
      drain {| overlay_caller := overlay_caller self; idle := idle self;
               idle_frames_left :=
                 if idle self then idle_frames_left self - 1
                 else idle_frames_left self;
               start_time := start_time self; frames := frames self + 1;
               button_manager := bm; queue := queue self;
               at_ := Draining |} (clock e) in
    (self', acts1 ++ [GetState; SendFrame (overlay_caller self)] ++ acts2)%list
  else
    let '(self', acts) := poll self in (self', StreamClose :: acts).

(** Lines 262-269: the event that opens the stream. *)
Definition dispatch_first (self : t) (event : item) : t :=
  match event.1 with
  | GOT_CONNECTION =>
      {| overlay_caller := overlay_caller self; idle := idle self;
         idle_frames_left := DOOM_FPS * 15;
         start_time := start_time self; frames := frames self;
         button_manager := button_manager self; queue := queue self;
         at_ := at_ self |}
  | NEW_PLAYER =>
      {| overlay_caller := set_caller event.2; idle := false;
         idle_frames_left := idle_frames_left self;
         start_time := start_time self; frames := frames self;
         button_manager := button_manager self; queue := queue self;
         at_ := at_ self |}
  | NO_PLAYER =>
      {| overlay_caller := set_caller VNone; idle := idle self;
         idle_frames_left := DOOM_FPS * 15;
         start_time := start_time self; frames := frames self;
         button_manager := button_manager self; queue := queue self;
         at_ := at_ self |}
  | BUTTON_PRESSED => self
  end.

(** Lines 294-309: an event between two frames. *)
Definition dispatch (self : t) (event : item) : result (t * list action) :=
  match event.1 with
  | GOT_CONNECTION =>
      Ok ({| overlay_caller := overlay_caller self; idle := idle self;
             idle_frames_left :=
               if idle self then DOOM_FPS * 15 else idle_frames_left self;
             start_time := start_time self; frames := frames self;
             button_manager := button_manager self; queue := queue self;
             at_ := at_ self |}, [])
  | NEW_PLAYER =>
      Ok ({| overlay_caller := set_caller event.2; idle := false;
             idle_frames_left := idle_frames_left self;
             start_time := start_time self; frames := frames self;
             button_manager := ButtonManager.init; queue := queue self;
             at_ := at_ self |}, [NewEpisode])
  | NO_PLAYER =>
      Ok ({| overlay_caller := set_caller VNone; idle := true;
             idle_frames_left := DOOM_FPS * 15;
             start_time := start_time self; frames := frames self;
             button_manager := ButtonManager.init; queue := queue self;
             at_ := at_ self |}, [NewEpisode])
  | BUTTON_PRESSED =>
      match ButtonManager.button_pressed (button_manager self) event.2 (DOOM_FPS / 2) with
      | Raise e => Raise e
      | Ok (bm, records) =>
          Ok ({| overlay_caller := overlay_caller self; idle := idle self;
                 idle_frames_left := idle_frames_left self;
                 start_time := start_time self; frames := frames self;
                 button_manager := bm; queue := queue self;
                 at_ := at_ self |}, Log <$> records)
      end
  end.

Definition with_queue (self : t) (q : list item) (p : point) : t :=
  {| overlay_caller := overlay_caller self; idle := idle self;
     idle_frames_left := idle_frames_left self;
     start_time := start_time self; frames := frames self;
     button_manager := button_manager self; queue := q; at_ := p |}.

(** Lines 271-275, then the loop. *)
Definition open_stream (self : t) (e : tick) : t * list action :=
  let '(self', acts) :=
    loop_head {| overlay_caller := overlay_caller self; idle := idle self;
                 idle_frames_left := idle_frames_left self;
                 start_time := clock_start e; frames := 0;
                 button_manager := ButtonManager.init; queue := queue self;
                 at_ := at_ self |} e in
  (self', StreamOpen :: NewEpisode :: acts).

(** Line 312, then the loop. *)
Definition end_of_tick (self : t) (e : tick) : t * list action :=
  let '(bm, buttons) := ButtonManager.get_action (button_manager self) in
  let '(self', acts) :=
    loop_head {| overlay_caller := overlay_caller self; idle := idle self;
                 idle_frames_left := idle_frames_left self;
                 start_time := start_time self; frames := frames self;
                 button_manager := bm; queue := queue self;
                 at_ := at_ self |} e in
  (self', MakeAction buttons :: acts).

(** One queue operation completes and the coroutine runs to the next. *)
Definition step (self : t) (e : tick) : t * list action :=
  let q := (queue self ++ arrivals e)%list in
  match at_ self with
  | Stopped => (self, [])
  | Polling =>
      match q with
      | event :: q' =>
          if expires e then poll (with_queue self q Polling)
          else (with_queue self q' Getting, [Get])
      | [] => poll (with_queue self q Polling)
      end
  | Getting =>
      match q with
      | event :: q' =>
          let '(self', acts) :=
            open_stream (dispatch_first (with_queue self q' Getting) event) e in
          (self', LogEvent event :: acts)
      | [] => (with_queue self q Getting, [])
      end
  | Draining =>
      match q with
      | event :: q' =>
          if expires e then end_of_tick (with_queue self q Draining) e
          else
            match dispatch (with_queue self q' Draining) event with
            | Raise x =>
                let '(self', acts) := stop (with_queue self q' Draining) x in
                (self', LogEvent event :: StreamClose :: acts)
            | Ok (self1, acts1) =>
                let '(self', acts) := drain self1 (clock e) in
                (self', LogEvent event :: acts1 ++ acts)%list
            end
      | [] => end_of_tick (with_queue self q Draining) e
      end
  end.

(** The coroutine over a sequence of answers of the outside world. *)
Fixpoint run (self : t) (es : list tick) : t * list action :=
  match es with
  | [] => (self, [])
  | e :: es' =>
      let '(self1, acts1) := step self e in
      let '(self2, acts2) := run self1 es' in
      (self2, (acts1 ++ acts2)%list)
  end.

(** The absolute time by which the current frame's events are awaited. *)
Definition deadline (self : t) : Q :=
  (start_time self + inject_Z (frames self) / inject_Z DOOM_FPS)%Q.

End Start.

(** The loop test of line 276. *)
Definition streaming (self : t) : bool :=
  negb (idle self) || bool_decide (0 < idle_frames_left self).

(** The events handed to a dispatch: each is logged just before. *)
Definition dispatched (acts : list action) : list item :=
  omap (fun a => match a with LogEvent event => Some event | _ => None end) acts.

Definition is_frame (a : action) : bool :=
  match a with SendFrame _ => true | _ => false end.

Definition is_open (a : action) : bool :=
  match a with StreamOpen => true | _ => false end.

Definition is_close (a : action) : bool :=
  match a with StreamClose => true | _ => false end.

Definition is_advance (a : action) : bool :=
  match a with AdvanceAction => true | _ => false end.

Definition count (f : action -> bool) (acts : list action) : nat :=
  length (filter (fun a => f a = true) acts).

(** The number of frames sent to the stream. *)
Definition frames_sent (acts : list action) : nat := count is_frame acts.

(** Nothing arrives during the wait. *)
Definition quiet (e : tick) : Prop := arrivals e = [].

(** A wait in which [items] arrive and no deadline passes, and one in
    which nothing arrives before the deadline, each ending at [now]. *)
Definition arriving (items : list item) (now : Q) : tick :=
  {| arrivals := items; expires := false; episode_finished := false;
     clock_start := now; clock := now |}.

Definition silent (now : Q) : tick :=
  {| arrivals := []; expires := true; episode_finished := false;
     clock_start := now; clock := now |}.

End Doom.

(** ** States and waits of the frame loop at 35 frames a second *)

(** [n] waits in a row in which nothing arrives, one frame period apart from
    [t0] on. *)
Definition silence (t0 : Q) (n : nat) : list Doom.tick :=
  (fun k => Doom.silent (t0 + inject_Z (Z.of_nat k) * (1 # 35))%Q) <$> seq 1 n.

(** The loop one frame into a stream opened at 7/2 for a caller. *)
Definition playing_at_frame_1 : Doom.t :=
  {| Doom.overlay_caller := "+441632960000"; Doom.idle := false;
     Doom.idle_frames_left := 0; Doom.start_time := 7 # 2; Doom.frames := 1;
     Doom.button_manager := ButtonManager.init; Doom.queue := [];
     Doom.at_ := Doom.Draining |}.

(** The same with the fire button held for 17 more ticks. *)
Definition firing_at_frame_1 : Doom.t :=
  {| Doom.overlay_caller := "+441632960000"; Doom.idle := false;
     Doom.idle_frames_left := 0; Doom.start_time := 7 # 2; Doom.frames := 1;
     Doom.button_manager :=
       {| ButtonManager.button_timeout := [0;0;0;0;17;0;0;0;0;0;0;0] |};
     Doom.queue := []; Doom.at_ := Doom.Draining |}.

(** The loop in idle decay with two frames of grace left. *)
Definition decaying_2_left : Doom.t :=
  {| Doom.overlay_caller := "No caller"; Doom.idle := true;
     Doom.idle_frames_left := 2; Doom.start_time := 20; Doom.frames := 523;
     Doom.button_manager := ButtonManager.init; Doom.queue := [];
     Doom.at_ := Doom.Draining |}.

(** ** The handlers of the registry with what they put and play *)

Module Calls.







(** Nobody waits while the active slot is free. *)
Definition settled (self : Asterisk.t) : Prop :=
  Asterisk.playing self = None -> Asterisk.waiting self = [].

End Calls.
(** ** Sequences of calls on a button manager *)

Module Buttons.

(** What [Doom.start] calls on its button manager: [button_pressed] with a
    digit, which is a string, and [get_action]. *)
Inductive op :=
  | Press (key : string) (timeout : Z)
  | Sample.

(** The button manager after a sequence of calls, or the exception of the
    first call that raises. *)
Fixpoint run (self : ButtonManager.t) (ops : list op) : result ButtonManager.t :=
  match ops with
  | [] => Ok self
  | Press key timeout :: ops' =>
      match ButtonManager.button_pressed self (VStr key) timeout with
      | Ok (self', _) => run self' ops'
      | Raise e => Raise e
      end
  | Sample :: ops' => run (ButtonManager.get_action self).1 ops'
  end.

End Buttons.
(** ** Readings of a trace of the frame loop *)

Module Traces.

Definition is_make (a : Doom.action) : bool :=
  match a with Doom.MakeAction _ => true | _ => false end.

Definition is_get (a : Doom.action) : bool :=
  match a with Doom.Get => true | _ => false end.

Definition is_exception (a : Doom.action) : bool :=
  match a with Doom.LogException _ => true | _ => false end.

(** 1 while the coroutine is inside the [with] block of line 271, else 0. *)
Definition inside_with (self : Doom.t) : nat :=
  if decide (Doom.at_ self = Doom.Draining) then 1 else 0.

(** The stream is open after a piece of the loop exactly when it was open
    before, or was opened, and was not closed. *)
Definition balanced (before : nat) (r : Doom.t * list Doom.action) : Prop :=
  (Doom.count Doom.is_open r.2 + before
   = Doom.count Doom.is_close r.2 + inside_with r.1)%nat.

(** Everything that is or will be in the queue during a run. *)
Definition supply (self : Doom.t) (es : list Doom.tick) : list item :=
  (Doom.queue self ++ concat (Doom.arrivals <$> es))%list.



End Traces.

(** ** Overlay: the number that is drawn (lines 44-63) *)

Module Overlay.

(** The text of a phone number as [phonenumbers] formats it: ASCII, so that
    [\d] and [[0-9]] match the same characters. *)
Abbreviation text := (list Ascii.ascii).

Definition is_digit (c : Ascii.ascii) : bool :=
  (48 <=? Ascii.nat_of_ascii c)%nat && (Ascii.nat_of_ascii c <=? 57)%nat.

(** [len(re.findall('\d', phone_number))] *)
Definition num_digits (s : text) : nat :=
  length (filter (fun c => is_digit c = true) s).

(** [([^0-9]*[0-9]){n}] matched at the start of [s]: the text matched and
    the rest, [None] when it does not match.  A group can match in one way
    only, since what follows its [[^0-9]*] must be a digit. *)
Fixpoint groups (n : nat) (s : text) {struct s} : option (text * text) :=
  match n with
  | O => Some ([], s)
  | S n' =>
      match s with
      | [] => None
      | c :: s' =>
          (fun mr => (c :: mr.1, mr.2)) <$>
          (if is_digit c then groups n' s' else groups n s')
      end
  end.

(** [$]: at the end of the string, or before a newline that ends it. *)
Definition at_dollar (rest : text) : bool :=
  match rest with
  | [] => true
  | [c] => bool_decide (Ascii.nat_of_ascii c = 10%nat)
  | _ => false
  end.

(** [re.search('([^0-9]*[0-9]){n}$', s)]: the match at the leftmost position
    where there is one. *)
Fixpoint search_tail (n : nat) (s : text) : option text :=
  let here :=
    match groups n s with
    | Some (m, rest) => if at_dollar rest then Some m else None
    | None => None
    end in
  match here with
  | Some m => Some m
  | None =>
      match s with
      | [] => None
      | _ :: s' => search_tail n s'
      end
  end.

(** [re.search('^([^0-9]*[0-9]){n}', s)] *)
Definition search_head (n : nat) (s : text) : option text :=
  fst <$> groups n s.

(** [s[a:-t]] for [0 <= a] and [0 <= t <= len(s)]: with [t = 0] the slice
    stops at 0 and is empty. *)
Definition slice_to_minus (s : text) (a t : nat) : text :=
  if (t =? 0)%nat then [] else take (length s - t - a) (drop a s).

(** [re.sub('\d', 'X', _)] on one character. *)
Definition redact (c : Ascii.ascii) : Ascii.ascii :=
  if is_digit c then Ascii.ascii_of_nat 88 else c.

(** What lines 52-59 give: a text, or [AttributeError] from [.group()] on a
    search that found nothing, which the [except] of line 60 does not
    catch. *)
Inductive outcome :=
  | Shown (s : text)
  | AttributeError.

(** Lines 52-59 of [format_phone_number], on the formatted number. *)
Definition obfuscate (phone_number : text) : outcome :=
  let digits := Z.of_nat (num_digits phone_number) in
  let num_tail_digits := (digits - 4) / 2 in
  match search_tail (Z.to_nat (Z.max num_tail_digits 0)) phone_number with
  | None => AttributeError
  | Some tail_digits =>
      let num_head_digits := digits - 4 - num_tail_digits in
      match search_head (Z.to_nat (Z.max num_head_digits 0)) phone_number with
      | None => AttributeError
      | Some head_digits =>
          let middle_digits :=
            slice_to_minus phone_number (length head_digits) (length tail_digits) in
          Shown (head_digits ++ (redact <$> middle_digits) ++ tail_digits)%list
      end
  end.

(** [format_phone_number] over what [phonenumbers.parse] and
    [format_number(_, INTERNATIONAL)] give for the number, [None] standing
    for [NumberParseException]. *)
Definition format_phone_number (international : string -> option string)
    (phone_number : string) : outcome :=
  match international phone_number with
  | Some formatted => obfuscate (String.list_ascii_of_string formatted)
  | None => Shown (String.list_ascii_of_string "Unknown caller")
  end.

(** A text that ends with a digit. *)
Definition ends_with_digit (s : text) : Prop :=
  exists c, last s = Some c /\ is_digit c = true.

End Overlay.

(** * Properties *)

(** ** The button manager *)

Section ButtonManagerFacts.

Import ButtonManager.

Implicit Types (self : t) (key : string) (h : Z) (i k n : nat).

Lemma decays_S n self : decays (S n) self = decays n (get_action self).1.
Proof.
  unfold decays. simpl.
  by destruct (get_actions n _).
Qed.

Lemma decays_S_r n self : decays (S n) self = (get_action (decays n self)).1.
Proof.
  revert self. induction n as [|n IH]; intros self; [done|].
  rewrite (decays_S (S n) self), (IH (get_action self).1).
  by rewrite <- (decays_S n self).
Qed.

(** After [n >= 1] decays a counter [x] is [max (x - n) 0]. *)
Lemma counter_decays n self i :
  button_timeout (decays (S n) self) !! i
  = (fun x => Z.max (x - Z.of_nat (S n)) 0) <$> (button_timeout self !! i).
Proof.
  revert self. induction n as [|n IH]; intros self.
  - unfold decays. simpl. rewrite list_lookup_fmap.
    by destruct (button_timeout self !! i).
  - rewrite decays_S, IH. simpl. rewrite list_lookup_fmap.
    destruct (button_timeout self !! i) as [x|]; simpl; [|done].
    f_equal. lia.
Qed.

(** The [k]-th sample reads the counters after [k] decays. *)
Lemma nth_sample_decays k self :
  (1 <= k)%nat ->
  nth_sample k self = (fun x => bool_decide (0 < x)) <$> button_timeout (decays k self).
Proof.
  intros Hk. destruct k as [|k]; [lia|].
  unfold nth_sample. replace (S k - 1)%nat with k by lia.
  by rewrite decays_S_r.
Qed.

Lemma nth_sample_lookup k self i :
  (1 <= k)%nat ->
  nth_sample k self !! i
  = (fun x => bool_decide (Z.of_nat k < x)) <$> (button_timeout self !! i).
Proof.
  intros Hk. rewrite nth_sample_decays by done.
  destruct k as [|k]; [lia|].
  rewrite list_lookup_fmap, counter_decays.
  destruct (button_timeout self !! i) as [x|]; simpl; [|done].
  f_equal. apply bool_decide_ext. lia.
Qed.

(** What a press that does not raise has done. *)
Lemma button_pressed_mapped self self' key h i records :
  position key = Some i ->
  button_pressed self (VStr key) h = Ok (self', records) ->
  (i < length (button_timeout self))%nat
  /\ button_timeout self' = <[i:=h]> (button_timeout self)
  /\ records = [].
Proof.
  unfold position, button_pressed. intros Hpos Hpress.
  destruct (dict_get BUTTON_MAP key) as [b|]; [|done].
  change (index BUTTON_LIST b = Some i) in Hpos. rewrite Hpos in Hpress.
  case_bool_decide; [|done].
  by simplify_eq.
Qed.

Lemma counter_after_press self self' key h i records :
  position key = Some i ->
  button_pressed self (VStr key) h = Ok (self', records) ->
  button_timeout self' !! i = Some h.
Proof.
  intros Hpos Hpress.
  destruct (button_pressed_mapped _ _ _ _ _ _ Hpos Hpress) as (Hi & -> & _).
  by apply list_lookup_insert_eq.
Qed.

(** A key outside the table has no position. *)
Lemma position_None key : dict_get BUTTON_MAP key = None -> position key = None.
Proof. unfold position. by intros ->. Qed.

Lemma dict_get_None d key : key ∉ d.*1 -> dict_get d key = None.
Proof.
  induction d as [|[k b] d IH]; [done|].
  rewrite fmap_cons, not_elem_of_cons. intros [Hne Hnotin]. simpl.
  destruct (String.eqb_spec k key); [done|]. by apply IH.
Qed.

Lemma button_pressed_ok self key h i :
  position key = Some i ->
  (i < length (button_timeout self))%nat ->
  button_pressed self (VStr key) h
  = Ok ({| button_timeout := <[i:=h]> (button_timeout self) |}, []).
Proof.
  unfold position, button_pressed. intros Hpos Hi.
  destruct (dict_get BUTTON_MAP key) as [b|]; [|done].
  change (index BUTTON_LIST b = Some i) in Hpos. rewrite Hpos.
  by rewrite bool_decide_eq_true_2.
Qed.

(** The samples after a press with hold [h], whatever [h] is. *)
Lemma sample_after_press self self' key h i records k :
  position key = Some i ->
  button_pressed self (VStr key) h = Ok (self', records) ->
  (1 <= k)%nat ->
  nth_sample k self' !! i = Some (bool_decide (Z.of_nat k < h)).
Proof.
  intros Hpos Hpress Hk.
  rewrite nth_sample_lookup by done.
  by rewrite (counter_after_press _ _ _ _ _ _ Hpos Hpress).
Qed.

(** The counter after a press with hold [h] and [n] decays. *)
Lemma counter_after_press_decays self self' key h i records n :
  position key = Some i ->
  button_pressed self (VStr key) h = Ok (self', records) ->
  0 <= h ->
  button_timeout (decays n self') !! i = Some (Z.max (h - Z.of_nat n) 0).
Proof.
  intros Hpos Hpress Hh. destruct n as [|n].
  - change (decays 0 self') with self'.
    rewrite (counter_after_press _ _ _ _ _ _ Hpos Hpress). f_equal. lia.
  - rewrite counter_decays.
    by rewrite (counter_after_press _ _ _ _ _ _ Hpos Hpress).
Qed.

End ButtonManagerFacts.

(** C4, as stated, fails: with key 5 (fire) and a hold of [35 // 2 = 17]
    ticks the 17th sample already reads the button released, so the button
    is not active for 17 samples. *)
Lemma C4_fire_not_active_for_17_samples :
  let self' := {| ButtonManager.button_timeout := [0;0;0;0;17;0;0;0;0;0;0;0] |} in
  ButtonManager.button_pressed ButtonManager.init (VStr "5") (35 / 2) = Ok (self', [])
  /\ ButtonManager.position "5" = Some 4%nat
  /\ ButtonManager.nth_sample 17 self' !! 4%nat = Some false
  /\ ~ ButtonManager.active_for_exactly 17 self' 4.
Proof.
  repeat split; try reflexivity.
  intros [Hactive _]. specialize (Hactive 17%nat).
  discriminate Hactive; lia.
Qed.

(** C4 (amended): after a press of a mapped key with hold [h >= 0] and no
    repress, the [k]-th sample reads the button active exactly when [k < h],
    that is in the next [h - 1] samples and no longer from sample [h] on; the
    counter is [max (h - n) 0] after [n] decays, so it never increases, it is
    positive before [h] decays and it is zero after [h] decays. *)
Theorem C4_hold_window (self self' : ButtonManager.t) (key : string) (h : Z)
    (i : nat) (records : list log_record) :
  ButtonManager.position key = Some i ->
  ButtonManager.button_pressed self (VStr key) h = Ok (self', records) ->
  0 <= h ->
  (forall k, (1 <= k)%nat ->
     ButtonManager.nth_sample k self' !! i = Some (bool_decide (Z.of_nat k < h)))
  /\ (forall n,
        ButtonManager.button_timeout (ButtonManager.decays n self') !! i
        = Some (Z.max (h - Z.of_nat n) 0))
  /\ (forall n x y,
        ButtonManager.button_timeout (ButtonManager.decays n self') !! i = Some x ->
        ButtonManager.button_timeout (ButtonManager.decays (S n) self') !! i = Some y ->
        y <= x)
  /\ ButtonManager.button_timeout (ButtonManager.decays (Z.to_nat h) self') !! i = Some 0
  /\ (forall n, Z.of_nat n < h ->
        ButtonManager.button_timeout (ButtonManager.decays n self') !! i <> Some 0).
Proof.
  intros Hpos Hpress Hh.
  pose proof (fun n => counter_after_press_decays _ _ _ _ _ _ n Hpos Hpress Hh) as Hc.
  split; [|split; [|split; [|split]]].
  - intros k Hk. by eapply sample_after_press.
  - done.
  - intros n x y. rewrite !Hc. intros [= <-] [= <-]. lia.
  - rewrite Hc. f_equal. lia.
  - intros n Hn. rewrite Hc. intros [= Hz]. lia.
Qed.

Lemma C4_hold_window_witness :
  let self' := {| ButtonManager.button_timeout := [0;0;0;0;17;0;0;0;0;0;0;0] |} in
  ButtonManager.position "5" = Some 4%nat
  /\ ButtonManager.button_pressed ButtonManager.init (VStr "5") (35 / 2) = Ok (self', [])
  /\ 0 <= 35 / 2
  /\ ButtonManager.nth_sample 16 self' !! 4%nat = Some true
  /\ ButtonManager.nth_sample 17 self' !! 4%nat = Some false
  /\ ButtonManager.button_timeout (ButtonManager.decays 17 self') !! 4%nat = Some 0.
Proof.
  intros self'.
  assert (ButtonManager.position "5" = Some 4%nat) as Hpos by reflexivity.
  assert (ButtonManager.button_pressed ButtonManager.init (VStr "5") (35 / 2)
          = Ok (self', [])) as Hpress by reflexivity.
  assert (0 <= 35 / 2) as Hh by (vm_compute; discriminate).
  pose proof (C4_hold_window _ _ _ _ _ _ Hpos Hpress Hh) as (Hsample & _ & _ & Hzero & _).
  split; [exact Hpos|]. split; [exact Hpress|]. split; [exact Hh|].
  split; [exact (Hsample 16%nat (le_S _ _ (le_n_S _ _ (Nat.le_0_l _))))|].
  split; [exact (Hsample 17%nat (le_S _ _ (le_n_S _ _ (Nat.le_0_l _))))|].
  exact Hzero.
Defined.

(** C8: a press of a mapped key sets the counter to the hold [h] whatever it
    was; a second press right after leaves the button manager as the first
    one left it, with the counter at [h]; and the button reads released in
    every sample from the [h]-th after the last press on. *)
Theorem C8_press_overwrites (self self1 : ButtonManager.t) (key : string) (h : Z)
    (i : nat) (records : list log_record) :
  ButtonManager.position key = Some i ->
  ButtonManager.button_pressed self (VStr key) h = Ok (self1, records) ->
  ButtonManager.button_timeout self1 !! i = Some h
  /\ (forall j, j <> i ->
        ButtonManager.button_timeout self1 !! j = ButtonManager.button_timeout self !! j)
  /\ exists self2,
       ButtonManager.button_pressed self1 (VStr key) h = Ok (self2, [])
       /\ self2 = self1
       /\ ButtonManager.button_timeout self2 !! i = Some h
       /\ (forall k, (1 <= k)%nat -> h <= Z.of_nat k ->
             ButtonManager.nth_sample k self2 !! i = Some false).
Proof.
  intros Hpos Hpress.
  pose proof (counter_after_press _ _ _ _ _ _ Hpos Hpress) as Hc.
  destruct (button_pressed_mapped _ _ _ _ _ _ Hpos Hpress) as (Hi & Hbt & _).
  split; [done|]. split.
  { intros j Hj. rewrite Hbt. by apply list_lookup_insert_ne. }
  assert (ButtonManager.button_pressed self1 (VStr key) h = Ok (self1, [])) as Hagain.
  { rewrite (button_pressed_ok _ _ _ _ Hpos).
    - destruct self1 as [bt1]. simpl in *. subst bt1.
      by rewrite list_insert_insert_eq.
    - rewrite Hbt. by rewrite length_insert. }
  exists self1. repeat split; try done.
  intros k Hk Hhk.
  rewrite (sample_after_press _ _ _ _ _ _ k Hpos Hagain Hk).
  f_equal. apply bool_decide_eq_false_2. lia.
Qed.

Lemma C8_press_overwrites_witness :
  let self := {| ButtonManager.button_timeout := [0;0;0;0;9;0;0;0;0;0;0;0] |} in
  let self1 := {| ButtonManager.button_timeout := [0;0;0;0;17;0;0;0;0;0;0;0] |} in
  ButtonManager.position "5" = Some 4%nat
  /\ ButtonManager.button_pressed self (VStr "5") 17 = Ok (self1, [])
  /\ ButtonManager.button_timeout self1 !! 4%nat = Some 17
  /\ exists self2,
       ButtonManager.button_pressed self1 (VStr "5") 17 = Ok (self2, [])
       /\ self2 = self1
       /\ ButtonManager.button_timeout self2 !! 4%nat = Some 17.
Proof.
  intros self self1.
  assert (ButtonManager.position "5" = Some 4%nat) as Hpos by reflexivity.
  assert (ButtonManager.button_pressed self (VStr "5") 17 = Ok (self1, []))
    as Hpress by reflexivity.
  pose proof (C8_press_overwrites _ _ _ _ _ _ Hpos Hpress)
    as (Hcounter & _ & self2 & Hagain & Hsame & Hcounter2 & _).
  split; [exact Hpos|]. split; [exact Hpress|]. split; [exact Hcounter|].
  exists self2. split; [exact Hagain|]. split; [exact Hsame|exact Hcounter2].
Defined.


(** ** The registry of callers *)

Section AsteriskFacts.

Import Asterisk.

Implicit Types (self : t) (present : list session) (o : op) (ops : list op).

Lemma filter_all {A} (P : A -> Prop) `{!forall x, Decision (P x)} (l : list A) :
  (forall x, x ∈ l -> P x) -> filter P l = l.
Proof.
  induction l as [|x l IH]; intros Hall; [done|].
  rewrite filter_cons_True by (apply Hall; left).
  f_equal. apply IH. intros y Hy. apply Hall. by right.
Qed.

Lemma NoDup_channels_filter (P : session -> Prop) `{!forall x, Decision (P x)}
    (l : list session) :
  NoDup (snd <$> l) -> NoDup (snd <$> filter P l).
Proof.
  intros Hl. eapply sublist_NoDup; [exact Hl|].
  apply fmap_sublist, sublist_filter.
Qed.

(** A departure from a channel other than the active one. *)
Lemma on_end_other self p channel :
  playing self = Some p ->
  channel <> p.2 ->
  on_end self channel
  = Ok ({| simwood := simwood self; playing := Some p;
           waiting := filter (fun x => channel <> x.2) (waiting self) |}, []).
Proof.
  intros Hp Hne. unfold on_end. rewrite Hp.
  by rewrite bool_decide_eq_false_2.
Qed.

(** The departure of the active caller while somebody waits. *)
Lemma on_end_promotes self p w0 ws :
  playing self = Some p ->
  waiting self = w0 :: ws ->
  on_end self p.2
  = Ok ({| simwood := simwood self; playing := Some w0; waiting := ws |},
        [ Play p.2 "sound:you-are-entering-the-game";
          Put (NEW_PLAYER, VStr w0.1) ]).
Proof.
  intros Hp Hw. unfold on_end. rewrite Hp, Hw.
  by rewrite bool_decide_eq_true_2.
Qed.


(** One operation keeps the registry in step with the order of arrival. *)
Lemma apply_holds self present o :
  holds self present ->
  fresh_arrivals present [o] ->
  holds (apply self o) (arrival_order present [o]).
Proof.
  intros (Hcallers & Hnodup & Hidle) Hfresh. unfold callers in Hcallers.
  destruct o as [caller channel|channel]; simpl in *.
  - destruct Hfresh as [Hfresh _].
    unfold on_start, on_start_admit, holds, callers.
    destruct (playing self) as [p|] eqn:Hp; simpl.
    + subst present. split; [done|]. split; [|done].
      change (p :: waiting self ++ [(caller, channel)])%list
        with ((p :: waiting self) ++ [(caller, channel)])%list.
      rewrite fmap_app. apply NoDup_app. split; [done|].
      split; [|apply NoDup_singleton].
      intros x Hx. simpl. rewrite list_elem_of_singleton. by intros ->.
    + specialize (Hidle eq_refl). rewrite Hidle in *. subst present.
      split; [done|]. split; [apply NoDup_singleton|done].
  - unfold on_end, holds, callers.
    destruct (playing self) as [p|] eqn:Hp; simpl.
    + subst present. rewrite fmap_cons, NoDup_cons in Hnodup.
      destruct Hnodup as [Hp_out Hnodup].
      case_bool_decide as Hch.
      * rewrite filter_cons_False by (intros Hne; by apply Hne).
        rewrite filter_all; last first.
        { intros x Hx Hx2. apply Hp_out. rewrite <- Hch, Hx2.
          by apply list_elem_of_fmap_2. }
        destruct (waiting self) as [|w0 ws] eqn:Hw; simpl.
        -- split; [done|]. split; [apply NoDup_nil_2|done].
        -- done.
      * simpl. rewrite filter_cons_True by done.
        split; [done|]. split; [|done].
        rewrite fmap_cons, NoDup_cons. split.
        -- intros Hin. apply Hp_out.
           apply list_elem_of_fmap in Hin as (x & Hx2 & Hx).
           apply list_elem_of_filter in Hx as [_ Hx].
           rewrite Hx2. by apply list_elem_of_fmap_2.
        -- by apply NoDup_channels_filter.
    + rewrite Hp. specialize (Hidle eq_refl). rewrite Hidle in *. subst present.
      by rewrite filter_nil.
Qed.

Lemma fresh_arrivals_cons present o ops :
  fresh_arrivals present (o :: ops)
  <-> fresh_arrivals present [o] /\ fresh_arrivals (arrival_order present [o]) ops.
Proof. destruct o; simpl; tauto. Qed.

Lemma run_holds ops : forall self present,
  holds self present ->
  fresh_arrivals present ops ->
  holds (run self ops) (arrival_order present ops).
Proof.
  induction ops as [|o ops IH]; intros self present Hholds Hfresh; [done|].
  apply fresh_arrivals_cons in Hfresh as [Ho Hops].
  change (run self (o :: ops)) with (run (apply self o) ops).
  assert (arrival_order present (o :: ops)
          = arrival_order (arrival_order present [o]) ops) as ->
    by (by destruct o).
  apply IH; [by apply apply_holds|done].
Qed.


End AsteriskFacts.




(** C2: an arrival while nobody is active makes the caller active and plays
    the entering prompt and puts NEW_PLAYER, and nothing else after the
    greeting; an arrival while somebody is active appends the caller to the
    waiting list and plays the queue prompt, and nothing else after the
    greeting.  For three callers that arrive in a row on an empty registry the
    first is active and the two others wait in order; when the first leaves,
    the second is promoted and the third still waits. *)
Theorem C2_admission :
  (forall sw w caller channel,
     let self := {| Asterisk.simwood := sw; Asterisk.playing := None;
                    Asterisk.waiting := w |} in
     Asterisk.on_start self caller channel
     = ({| Asterisk.simwood := sw; Asterisk.playing := Some (caller, channel);
           Asterisk.waiting := w |},
        (Asterisk.on_start_greeting self caller channel
         ++ [ Asterisk.Play channel "sound:you-are-entering-the-game";
              Asterisk.Put (NEW_PLAYER, VStr caller) ])%list))
  /\ (forall sw p w caller channel,
        let self := {| Asterisk.simwood := sw; Asterisk.playing := Some p;
                       Asterisk.waiting := w |} in
        Asterisk.on_start self caller channel
        = ({| Asterisk.simwood := sw; Asterisk.playing := Some p;
              Asterisk.waiting := (w ++ [(caller, channel)])%list |},
           (Asterisk.on_start_greeting self caller channel
            ++ [ Asterisk.Play channel "sound:you-are-being-placed-in-a-queue" ])%list))
  /\ (forall sw (a b c : Asterisk.session),
        let self := Asterisk.run (Asterisk.init sw)
                      [Asterisk.Arrive a.1 a.2; Asterisk.Arrive b.1 b.2;
                       Asterisk.Arrive c.1 c.2] in
        self = {| Asterisk.simwood := sw; Asterisk.playing := Some a;
                  Asterisk.waiting := [b; c] |}
        /\ Asterisk.on_end self a.2
           = Ok ({| Asterisk.simwood := sw; Asterisk.playing := Some b;
                    Asterisk.waiting := [c] |},
                 [ Asterisk.Play a.2 "sound:you-are-entering-the-game";
                   Asterisk.Put (NEW_PLAYER, VStr b.1) ])).
Proof.
  split; [done|]. split; [done|].
  intros sw [a1 a2] [b1 b2] [c1 c2] self. split; [done|].
  by apply on_end_promotes.
Qed.

(** C7: where the claim fails.  With nobody active, [on_end] raises
    [TypeError] on [self.playing[1]] whatever the channel and the waiting
    list are, instead of reporting no change. *)
Theorem C7_on_end_nobody_active :
  forall sw w channel,
    Asterisk.on_end {| Asterisk.simwood := sw; Asterisk.playing := None;
                       Asterisk.waiting := w |} channel
    = Raise TypeError.
Proof. done. Qed.
(** ** The frame loop *)

Section DoomFacts.

Import Doom.

Variable DOOM_FPS : Z.
Variable format_phone_number : string -> string.
Hypothesis fps_nonzero : DOOM_FPS <> 0.

Local Abbreviation step := (Doom.step DOOM_FPS format_phone_number).
Local Abbreviation run := (Doom.run DOOM_FPS format_phone_number).
Local Abbreviation dispatch := (Doom.dispatch DOOM_FPS format_phone_number).
Local Abbreviation loop_head := (Doom.loop_head DOOM_FPS).
Local Abbreviation end_of_tick := (Doom.end_of_tick DOOM_FPS).
Local Abbreviation poll := (Doom.poll DOOM_FPS).
Local Abbreviation drain := (Doom.drain DOOM_FPS).

Implicit Types (self : Doom.t) (e : tick) (es : list tick) (acts : list action).

Lemma true_div_ok a : true_div a DOOM_FPS = Ok (inject_Z a / inject_Z DOOM_FPS)%Q.
Proof. unfold true_div. by rewrite (proj2 (Z.eqb_neq _ _) fps_nonzero). Qed.

Lemma poll_ok self :
  poll self
  = (with_queue self (queue self) Polling,
     [AdvanceAction; WaitFor (inject_Z 1 / inject_Z DOOM_FPS)%Q]).
Proof. unfold poll. by rewrite true_div_ok. Qed.

Lemma drain_ok self now :
  drain self now
  = (with_queue self (queue self) Draining,
     [WaitFor (start_time self + inject_Z (frames self) / inject_Z DOOM_FPS - now)%Q]).
Proof. unfold drain. by rewrite true_div_ok. Qed.

Lemma count_app f acts1 acts2 :
  count f (acts1 ++ acts2) = (count f acts1 + count f acts2)%nat.
Proof. unfold count. by rewrite filter_app, length_app. Qed.

Lemma count_cons f a acts :
  count f (a :: acts) = ((if f a then 1 else 0) + count f acts)%nat.
Proof.
  unfold count. rewrite filter_cons.
  destruct (f a); by case_decide.
Qed.

Lemma count_nil f : count f [] = 0%nat.
Proof. done. Qed.

Lemma count_log f records :
  (forall r, f (Log r) = false) -> count f (Log <$> records) = 0%nat.
Proof.
  intros Hf. induction records as [|r records IH]; [done|].
  by rewrite fmap_cons, count_cons, Hf, IH.
Qed.

Lemma run_cons self e es :
  run self (e :: es)
  = let '(self1, acts1) := step self e in
    let '(self2, acts2) := run self1 es in
    (self2, (acts1 ++ acts2)%list).
Proof. done. Qed.

Lemma run_app es1 : forall self es2,
  run self (es1 ++ es2)
  = let '(self1, acts1) := run self es1 in
    let '(self2, acts2) := run self1 es2 in
    (self2, (acts1 ++ acts2)%list).
Proof.
  induction es1 as [|e es1 IH]; intros self es2.
  - simpl. by destruct (run self es2).
  - rewrite <- app_comm_cons, !run_cons.
    destruct (step self e) as [self1 acts1]. rewrite IH.
    destruct (run self1 es1) as [self2 acts2].
    destruct (run self2 es2) as [self3 acts3].
    by rewrite app_assoc.
Qed.

(** What a dispatch between two frames leaves alone. *)
Lemma dispatch_frame self event self' acts :
  dispatch self event = Ok (self', acts) ->
  start_time self' = start_time self
  /\ frames self' = frames self
  /\ queue self' = queue self
  /\ at_ self' = at_ self
  /\ count is_frame acts = 0%nat
  /\ count is_open acts = 0%nat
  /\ count is_close acts = 0%nat.
Proof.
  unfold Doom.dispatch. destruct event.1.
  - by intros [= <- <-].
  - by intros [= <- <-].
  - by intros [= <- <-].
  - destruct (ButtonManager.button_pressed _ _ _) as [[bm records]|x]; [|done].
    intros [= <- <-]. simpl. by rewrite !count_log.
Qed.


Lemma loop_head_continues self e :
  streaming self = true ->
  loop_head self e
  = ({| overlay_caller := overlay_caller self; idle := idle self;
        idle_frames_left :=
          if idle self then idle_frames_left self - 1 else idle_frames_left self;
        start_time := start_time self; frames := frames self + 1;
        button_manager :=
          if episode_finished e then ButtonManager.init else button_manager self;
        queue := queue self; at_ := Draining |},
     ((if episode_finished e then [IsEpisodeFinished true; NewEpisode]
       else [IsEpisodeFinished false])
      ++ [ GetState; SendFrame (overlay_caller self);
           WaitFor (start_time self + inject_Z (frames self + 1) / inject_Z DOOM_FPS
                    - clock e)%Q ])%list).
Proof.
  unfold streaming, Doom.loop_head. intros Hs.
  replace (0 <? idle_frames_left self) with (bool_decide (0 < idle_frames_left self))
    by (case_bool_decide; symmetry; [by apply Z.ltb_lt|by apply Z.ltb_ge; lia]).
  rewrite Hs. destruct (episode_finished e); by rewrite drain_ok.
Qed.

Lemma loop_head_exits self e :
  streaming self = false ->
  loop_head self e
  = (with_queue self (queue self) Polling,
     [StreamClose; AdvanceAction; WaitFor (inject_Z 1 / inject_Z DOOM_FPS)%Q]).
Proof.
  unfold streaming, Doom.loop_head. intros Hs.
  replace (0 <? idle_frames_left self) with (bool_decide (0 < idle_frames_left self))
    by (case_bool_decide; symmetry; [by apply Z.ltb_lt|by apply Z.ltb_ge; lia]).
  rewrite Hs. by rewrite poll_ok.
Qed.

Lemma step_polling_quiet self e :
  at_ self = Polling -> queue self = [] -> quiet e ->
  step self e
  = (self, [AdvanceAction; WaitFor (inject_Z 1 / inject_Z DOOM_FPS)%Q]).
Proof.
  intros Hat Hq He. unfold Doom.step. rewrite Hat, Hq, He. simpl.
  rewrite poll_ok. destruct self; simpl in *. by subst.
Qed.

(** The first event of a stream: line 256 takes it from the queue and the
    loop goes on to the [get] of line 260; nothing else is done with it. *)
Lemma step_polling_takes self e event q' :
  at_ self = Polling ->
  (queue self ++ arrivals e)%list = event :: q' ->
  expires e = false ->
  step self e = (with_queue self q' Getting, [Get])
  /\ dispatched [Get] = [].
Proof.
  intros Hat Hq Hexp. unfold Doom.step. by rewrite Hat, Hq, Hexp.
Qed.

Lemma step_decay self e :
  at_ self = Draining -> idle self = true -> queue self = [] -> quiet e ->
  0 < idle_frames_left self ->
  exists self' acts,
    step self e = (self', acts)
    /\ at_ self' = Draining /\ idle self' = true /\ queue self' = []
    /\ idle_frames_left self' = idle_frames_left self - 1
    /\ frames_sent acts = 1%nat
    /\ count is_close acts = 0%nat.
Proof.
  intros Hat Hidle Hq He Hleft. unfold Doom.step. rewrite Hat, Hq, He. simpl.
  unfold Doom.end_of_tick. simpl. rewrite loop_head_continues; last first.
  { unfold streaming. simpl. rewrite bool_decide_eq_true_2 by done.
    by rewrite orb_true_r. }
  simpl. rewrite Hidle. eexists _, _. split; [done|]. simpl.
  repeat split. all: by destruct (episode_finished e).
Qed.

Lemma step_rest self e :
  at_ self = Draining -> idle self = true -> queue self = [] -> quiet e ->
  idle_frames_left self <= 0 ->
  exists self',
    step self e
    = (self',
       [ MakeAction (ButtonManager.get_action (button_manager self)).2;
         StreamClose; AdvanceAction; WaitFor (inject_Z 1 / inject_Z DOOM_FPS)%Q ])
    /\ at_ self' = Polling /\ queue self' = [].
Proof.
  intros Hat Hidle Hq He Hleft. unfold Doom.step. rewrite Hat, Hq, He. simpl.
  unfold Doom.end_of_tick. simpl. rewrite loop_head_exits; last first.
  { unfold streaming. simpl. rewrite Hidle. by rewrite bool_decide_eq_false_2 by lia. }
  by eexists.
Qed.

Lemma run_decay es : forall self,
  at_ self = Draining -> idle self = true -> queue self = [] ->
  Forall quiet es ->
  idle_frames_left self = Z.of_nat (length es) ->
  exists self' acts,
    run self es = (self', acts)
    /\ at_ self' = Draining /\ idle self' = true /\ queue self' = []
    /\ idle_frames_left self' = 0
    /\ frames_sent acts = length es
    /\ count is_close acts = 0%nat.
Proof.
  induction es as [|e es IH]; intros self Hat Hidle Hq Hquiet Hleft.
  - by exists self, [].
  - apply Forall_cons in Hquiet as [He Hes]. simpl in Hleft.
    destruct (step_decay self e) as (self1 & acts1 & Hstep & Hat1 & Hidle1 & Hq1 & Hleft1 & Hsent1 & Hclose1);
      [done..|lia|].
    destruct (IH self1) as (self2 & acts2 & Hrun & Hat2 & Hidle2 & Hq2 & Hleft2 & Hsent2 & Hclose2);
      [done..|lia|].
    exists self2, (acts1 ++ acts2)%list.
    rewrite run_cons, Hstep, Hrun. unfold frames_sent in *.
    rewrite !count_app. repeat split; try done. all: simpl; lia.
Qed.

Lemma run_rest es : forall self,
  at_ self = Polling -> queue self = [] -> Forall quiet es ->
  run self es
  = (self, concat (replicate (length es)
                     [AdvanceAction; WaitFor (inject_Z 1 / inject_Z DOOM_FPS)%Q])).
Proof.
  induction es as [|e es IH]; intros self Hat Hq Hquiet; [done|].
  apply Forall_cons in Hquiet as [He Hes].
  by rewrite run_cons, step_polling_quiet, IH.
Qed.

(** C6 (amended): in idle decay with [n] frames of grace left and nothing
    arriving, each of the next [n] ticks sends one frame and the stream stays
    open; the tick after them closes the stream and goes back to polling the
    queue; from then on every tick only advances the game, and no frame is
    sent. *)
Theorem C6_idle_grace_closes_stream self es1 e es2 :
  at_ self = Draining -> idle self = true -> queue self = [] ->
  idle_frames_left self = Z.of_nat (length es1) ->
  Forall quiet (es1 ++ e :: es2) ->
  exists self1 acts1 self2 buttons,
    run self es1 = (self1, acts1)
    /\ at_ self1 = Draining
    /\ frames_sent acts1 = length es1
    /\ count is_close acts1 = 0%nat
    /\ step self1 e
       = (self2, [ MakeAction buttons; StreamClose; AdvanceAction;
                   WaitFor (inject_Z 1 / inject_Z DOOM_FPS)%Q ])
    /\ at_ self2 = Polling
    /\ run self2 es2
       = (self2, concat (replicate (length es2)
                           [AdvanceAction; WaitFor (inject_Z 1 / inject_Z DOOM_FPS)%Q])).
Proof.
  intros Hat Hidle Hq Hleft Hquiet.
  apply Forall_app in Hquiet as [Hes1 Hquiet].
  apply Forall_cons in Hquiet as [He Hes2].
  destruct (run_decay es1 self) as (self1 & acts1 & Hrun & Hat1 & Hidle1 & Hq1 & Hleft1 & Hsent1 & Hclose1);
    [done..|].
  destruct (step_rest self1 e) as (self2 & Hstep & Hat2 & Hq2); [done..|lia|].
  exists self1, acts1, self2, (ButtonManager.get_action (button_manager self1)).2.
  repeat split; try done.
  by apply run_rest.
Qed.




(** A step that ends in the frame loop without starting in it has opened the
    stream. *)
Lemma step_into_draining self e self' acts :
  at_ self <> Draining ->
  step self e = (self', acts) ->
  at_ self' = Draining ->
  count is_open acts <> 0%nat.
Proof.
  intros Hat Hstep Hat'. unfold Doom.step in Hstep.
  destruct (at_ self) eqn:Hpoint; [| |done|].
  - destruct (queue self ++ arrivals e)%list as [|event q'];
      [|destruct (expires e)]; rewrite ?poll_ok in Hstep;
      injection Hstep as <- <-; done.
  - destruct (queue self ++ arrivals e)%list as [|event q'].
    + injection Hstep as <- <-. done.
    + unfold Doom.open_stream in Hstep.
      destruct (loop_head _ e) as [self1 acts1].
      injection Hstep as <- <-. rewrite !count_cons. simpl. lia.
  - injection Hstep as <- <-. congruence.
Qed.

Lemma run_into_draining es : forall self self' acts,
  at_ self <> Draining ->
  run self es = (self', acts) ->
  at_ self' = Draining ->
  count is_open acts <> 0%nat.
Proof.
  induction es as [|e es IH]; intros self self' acts Hat Hrun Hat'.
  - injection Hrun as <- <-. done.
  - rewrite run_cons in Hrun.
    destruct (step self e) as [self1 acts1] eqn:Hstep.
    destruct (run self1 es) as [self2 acts2] eqn:Hrest.
    injection Hrun as <- <-. rewrite count_app.
    destruct (decide (at_ self1 = Draining)) as [Hat1|Hat1].
    + pose proof (step_into_draining _ _ _ _ Hat Hstep Hat1). lia.
    + pose proof (IH _ _ _ Hat1 Hrest Hat'). lia.
Qed.



(** The event that opens the stream finds a new episode and a fresh button
    manager as well (lines 274-275). *)
Lemma step_getting_resets self e event q' :
  at_ self = Getting ->
  (queue self ++ arrivals e)%list = event :: q' ->
  exists self' acts,
    step self e = (self', LogEvent event :: StreamOpen :: NewEpisode :: acts)
    /\ button_manager self' = ButtonManager.init.
Proof.
  intros Hat Hq. unfold Doom.step. rewrite Hat, Hq. unfold Doom.open_stream.
  match goal with |- context [loop_head ?s _] => destruct (streaming s) eqn:Hstr end.
  - rewrite loop_head_continues by done. eexists _, _. split; [done|]. simpl.
    by destruct (episode_finished e).
  - rewrite loop_head_exits by done. by eexists _, _.
Qed.

(** C10: an event NEW_PLAYER or NO_PLAYER that is dispatched between two
    frames starts a new episode and leaves a fresh button manager, all of
    whose counters are zero, so that the next sample reads every button
    released: nothing held before the event is held after it. *)
Theorem C10_session_boundary_resets self e event q' :
  at_ self = Draining ->
  (queue self ++ arrivals e)%list = event :: q' ->
  expires e = false ->
  event.1 = NEW_PLAYER \/ event.1 = NO_PLAYER ->
  exists self' timeout,
    step self e = (self', [LogEvent event; NewEpisode; WaitFor timeout])
    /\ at_ self' = Draining
    /\ button_manager self' = ButtonManager.init
    /\ ButtonManager.button_timeout (button_manager self') = replicate 12 0
    /\ (ButtonManager.get_action (button_manager self')).2 = replicate 12 false
    /\ idle self' = bool_decide (event.1 = NO_PLAYER).
Proof.
  intros Hat Hq Hexp Hevent. unfold Doom.step. rewrite Hat, Hq, Hexp.
  unfold Doom.dispatch.
  destruct Hevent as [-> | ->]; rewrite drain_ok; simpl; by eexists _, _.
Qed.

(** C9: a press of a key that is not in [BUTTON_MAP] returns the button
    manager as it was, with one record at warning level that names the key,
    and raises nothing; dispatched between two frames it leaves the whole
    state of the loop as it was and the loop goes on. *)
Theorem C9_unmapped_key_ignored key :
  key ∉ ButtonManager.BUTTON_MAP.*1 ->
  (forall bm h,
     ButtonManager.button_pressed bm (VStr key) h
     = Ok (bm, [(WARNING, ButtonManager.not_found_message key)]))
  /\ (forall self,
        dispatch self (BUTTON_PRESSED, VStr key)
        = Ok (self, [Log (WARNING, ButtonManager.not_found_message key)]))
  /\ (forall self e q',
        at_ self = Draining ->
        (queue self ++ arrivals e)%list = (BUTTON_PRESSED, VStr key) :: q' ->
        expires e = false ->
        step self e
        = (with_queue self q' Draining,
           [ LogEvent (BUTTON_PRESSED, VStr key);
             Log (WARNING, ButtonManager.not_found_message key);
             WaitFor (deadline DOOM_FPS self - clock e)%Q ])).
Proof.
  intros Hkey. apply dict_get_None in Hkey.
  assert (forall bm h,
            ButtonManager.button_pressed bm (VStr key) h
            = Ok (bm, [(WARNING, ButtonManager.not_found_message key)])) as Hpress.
  { intros bm h. unfold ButtonManager.button_pressed. by rewrite Hkey. }
  assert (forall self,
            dispatch self (BUTTON_PRESSED, VStr key)
            = Ok (self, [Log (WARNING, ButtonManager.not_found_message key)])) as Hdispatch.
  { intros self. unfold Doom.dispatch. cbn [fst snd]. rewrite Hpress. by destruct self. }
  split; [done|]. split; [done|].
  intros self e q' Hat Hq Hexp. unfold Doom.step.
  rewrite Hat, Hq, Hexp, Hdispatch, drain_ok. by destruct self.
Qed.

End DoomFacts.

(** ** Runs of the frame loop at 35 frames a second *)

(** C3: where the claim fails.  A connection is put on the queue and, two and
    a half seconds later, the new player: the loop takes both from the queue,
    and hands only the second to a dispatch.  The first is overwritten by the
    [get] of line 260: it is nowhere logged, and the grace it should have
    started is still zero. *)
Theorem C3_first_event_never_dispatched :
  let es := [ Doom.arriving [(GOT_CONNECTION, VNone)] 1;
              Doom.arriving [(NEW_PLAYER, VStr "+441632960000")] (7 # 2) ] in
  let '(self, acts) := Doom.run 35 id (Doom.boot 35 id).1 es in
  Doom.queue self = []
  /\ Doom.dispatched acts = [(NEW_PLAYER, VStr "+441632960000")]
  /\ Doom.idle_frames_left self = 0.
Proof. vm_compute. done. Qed.

(** C6, as stated, fails.  With no caller at all the stream is not even
    opened: twenty seconds of ticks after the start send no frame.  And when
    a grace of [35 * 15 = 525] frames runs out, its last tick closes the
    stream: the second that follows advances the game 35 times and sends no
    frame. *)
Lemma C6_stream_closed_after_grace :
  let '(self0, acts0) := Doom.run 35 id (Doom.boot 35 id).1 (silence 0 700) in
  let es := ([ Doom.arriving [(GOT_CONNECTION, VNone)] 1;
               Doom.arriving [(GOT_CONNECTION, VNone)] 20 ]
             ++ silence 20 525)%list in
  let '(self1, acts1) := Doom.run 35 id (Doom.boot 35 id).1 es in
  let '(self2, acts2) := Doom.run 35 id self1 (silence 35 35) in
  (Doom.frames_sent acts0 = 0%nat /\ Doom.count Doom.is_open acts0 = 0%nat)
  /\ Doom.frames_sent acts1 = 525%nat
  /\ Doom.count Doom.is_close acts1 = 1%nat
  /\ Doom.at_ self1 = Doom.Polling
  /\ Doom.frames_sent acts2 = 0%nat
  /\ Doom.count Doom.is_open acts2 = 0%nat
  /\ Doom.count Doom.is_advance acts2 = 35%nat.
Proof. vm_compute. done. Qed.

Lemma fps_35_nonzero : 35 <> 0.
Proof. discriminate. Defined.


Lemma C6_idle_grace_closes_stream_witness :
  let es1 := silence 35 2 in
  let e := Doom.silent 36 in
  let es2 := silence 36 3 in
  Doom.idle_frames_left decaying_2_left = Z.of_nat (length es1)
  /\ Forall Doom.quiet (es1 ++ e :: es2)
  /\ exists self1 acts1 self2 buttons,
       Doom.run 35 id decaying_2_left es1 = (self1, acts1)
       /\ Doom.at_ self1 = Doom.Draining
       /\ Doom.frames_sent acts1 = length es1
       /\ Doom.count Doom.is_close acts1 = 0%nat
       /\ Doom.step 35 id self1 e
          = (self2, [ Doom.MakeAction buttons; Doom.StreamClose; Doom.AdvanceAction;
                      Doom.WaitFor (inject_Z 1 / inject_Z 35)%Q ])
       /\ Doom.at_ self2 = Doom.Polling
       /\ Doom.run 35 id self2 es2
          = (self2, concat (replicate (length es2)
                              [Doom.AdvanceAction; Doom.WaitFor (inject_Z 1 / inject_Z 35)%Q])).
Proof.
  intros es1 e es2.
  assert (Forall Doom.quiet (es1 ++ e :: es2)) as Hquiet.
  { repeat constructor. }
  split; [reflexivity|]. split; [exact Hquiet|].
  apply (C6_idle_grace_closes_stream 35 id fps_35_nonzero decaying_2_left es1 e es2);
    [reflexivity | reflexivity | reflexivity | reflexivity | exact Hquiet].
Defined.

Lemma C9_unmapped_key_ignored_witness :
  ("A" ∉ ButtonManager.BUTTON_MAP.*1)
  /\ ButtonManager.button_pressed ButtonManager.init (VStr "A") (35 / 2)
     = Ok (ButtonManager.init,
           [(WARNING, "Button 'A' not found in BUTTON_MAP - ignoring")]).
Proof.
  assert ("A" ∉ ButtonManager.BUTTON_MAP.*1) as Hkey.
  { apply (bool_decide_unpack _). by vm_compute. }
  split; [exact Hkey|].
  exact (proj1 (C9_unmapped_key_ignored 35 id fps_35_nonzero "A" Hkey)
           ButtonManager.init (35 / 2)).
Defined.

Lemma C10_session_boundary_resets_witness :
  let self := firing_at_frame_1 in
  let e := Doom.arriving [(NO_PLAYER, VNone)] ((7 # 2) + (1 # 70))%Q in
  exists self' timeout,
    Doom.step 35 id self e
    = (self', [Doom.LogEvent (NO_PLAYER, VNone); Doom.NewEpisode; Doom.WaitFor timeout])
    /\ Doom.at_ self' = Doom.Draining
    /\ Doom.button_manager self' = ButtonManager.init
    /\ ButtonManager.button_timeout (Doom.button_manager self') = replicate 12 0
    /\ (ButtonManager.get_action (Doom.button_manager self')).2 = replicate 12 false
    /\ Doom.idle self' = bool_decide ((NO_PLAYER, VNone).1 = NO_PLAYER).
Proof.
  intros self e.
  apply (C10_session_boundary_resets 35 id fps_35_nonzero self e (NO_PLAYER, VNone) []);
    [reflexivity | reflexivity | reflexivity | by right].
Defined.

(** ** More on the registry of callers *)

Section CallsFacts.

Import Asterisk.

Implicit Types (self : Asterisk.t) (o : op) (ops : list op).


Lemma run_snoc self ops o : run self (ops ++ [o]) = apply (run self ops) o.
Proof. unfold run. by rewrite fold_left_app. Qed.

Lemma apply_settled self o : Calls.settled self -> Calls.settled (apply self o).
Proof.
  unfold Calls.settled. intros Hs.
  destruct o as [caller channel|channel]; simpl.
  - unfold on_start, on_start_admit. by destruct (playing self).
  - unfold on_end. destruct (playing self) as [p|] eqn:Hp; [|by rewrite Hp].
    case_bool_decide; [|done]. by destruct (waiting self).
Qed.

Lemma run_settled ops : forall self, Calls.settled self -> Calls.settled (run self ops).
Proof.
  induction ops as [|o ops IH]; intros self Hs; [done|].
  apply IH. by apply apply_settled.
Qed.

(** X1: whatever arrives and departs, in whatever order and on whatever
    channels, either somebody is active and every [on_end] returns, or the
    registry is empty, nobody waits, and every [on_end] raises. *)
Theorem X1_nobody_waits_while_slot_free sw ops :
  let self := run (init sw) ops in
  (is_Some (playing self) /\ forall channel, exists r, on_end self channel = Ok r)
  \/ (playing self = None /\ waiting self = []
      /\ forall channel, on_end self channel = Raise TypeError).
Proof.
  intros self.
  assert (Calls.settled self) as Hs by (by apply run_settled).
  unfold Calls.settled in Hs. unfold on_end.
  destruct (playing self) as [p|]; [left|right].
  - split; [done|]. intros channel.
    case_bool_decide; [|by eexists]. destruct (waiting self); by eexists.
  - by rewrite Hs.
Qed.







(** X3: in a registry reached by arrivals on channels not already present,
    a digit from the channel of the active caller is put on the queue, once,
    and a digit from a waiting caller's channel, or from any channel when
    nobody is active, is dropped; [on_dtmf] never raises. *)
Theorem X3_only_active_caller_plays sw ops :
  fresh_arrivals [] ops ->
  let self := run (init sw) ops in
  (forall p digit,
     playing self = Some p ->
     on_dtmf self p.2 digit = [Put (BUTTON_PRESSED, VStr digit)])
  /\ (forall s digit, s ∈ waiting self -> on_dtmf self s.2 digit = [])
  /\ (forall channel digit, playing self = None -> on_dtmf self channel digit = []).
Proof.
  intros Hfresh self.
  assert (holds (init sw) []) as Hinit.
  { split; [done|]. split; [apply NoDup_nil_2|done]. }
  destruct (run_holds ops _ _ Hinit Hfresh) as (Hcallers & Hnodup & _).
  fold self in Hcallers. unfold callers in Hcallers. unfold on_dtmf.
  split; [|split].
  - intros p digit ->. by rewrite bool_decide_eq_true_2.
  - intros s digit Hs. destruct (playing self) as [p|]; [|done].
    rewrite <- Hcallers, fmap_cons, NoDup_cons in Hnodup.
    destruct Hnodup as [Hout _].
    rewrite bool_decide_eq_false_2; [done|].
    intros Heq. apply Hout. rewrite <- Heq. by apply list_elem_of_fmap_2.
  - by intros channel digit ->.
Qed.

(** X4: while somebody is active, the departure of another channel returns
    without effect, keeps the active caller, removes every waiting caller of
    that channel and keeps the others in their order; a second departure of
    the same channel changes nothing more, and the departure of a channel
    that is not waiting changes nothing at all. *)
Theorem X4_departure_of_waiting_caller self p channel :
  playing self = Some p ->
  channel <> p.2 ->
  exists self1,
    on_end self channel = Ok (self1, [])
    /\ on_end self1 channel = Ok (self1, [])
    /\ playing self1 = Some p
    /\ (channel ∉ waiting_channels self1)
    /\ waiting self1 `sublist_of` waiting self
    /\ (forall s, s.2 <> channel -> s ∈ waiting self1 <-> s ∈ waiting self)
    /\ (channel ∉ waiting_channels self -> self1 = self).
Proof.
  intros Hp Hne. eexists. split; [by apply on_end_other|].
  split; [|split; [done|split; [|split; [|split]]]].
  - rewrite (on_end_other _ p) by done. simpl. do 3 f_equal.
    apply filter_all. intros x Hx. by apply list_elem_of_filter in Hx as [? _].
  - unfold waiting_channels. simpl. intros Hin.
    apply list_elem_of_fmap in Hin as (x & -> & Hx).
    by apply list_elem_of_filter in Hx as [? _].
  - apply sublist_filter.
  - intros s Hs. simpl. rewrite list_elem_of_filter. split; [by intros [_ ?]|].
    intros Hin. split; [|done]. by intros ->.
  - unfold waiting_channels. intros Hout.
    rewrite filter_all.
    + destruct self. simpl in *. by subst.
    + intros x Hx ->. apply Hout. by apply list_elem_of_fmap_2.
Qed.

(** X5: in a registry reached by arrivals on channels not already present,
    a caller who arrives on such a channel and departs at once leaves the
    registry exactly as it was, whether the caller was made active or put in
    the waiting list. *)
Theorem X5_arrive_then_depart sw ops caller channel :
  fresh_arrivals [] (ops ++ [Arrive caller channel]) ->
  run (init sw) (ops ++ [Arrive caller channel; Depart channel])
  = run (init sw) ops.
Proof.
  intros Hfresh.
  assert (holds (init sw) []) as Hinit.
  { split; [done|]. split; [apply NoDup_nil_2|done]. }
  pose proof (run_holds _ _ _ Hinit Hfresh) as (Hcallers & Hnodup & _).
  rewrite run_snoc in Hcallers.
  change (ops ++ [Arrive caller channel; Depart channel])%list
    with (ops ++ [Arrive caller channel] ++ [Depart channel])%list.
  rewrite app_assoc, !run_snoc.
  pose proof (run_settled ops (init sw)) as Hsettled.
  unfold Calls.settled in Hsettled.
  destruct (run (init sw) ops) as [sw' pl w] eqn:Hrun. simpl in *.
  unfold on_start, on_start_admit, callers in *. simpl in *.
  destruct pl as [p|]; simpl in *.
  - rewrite <- Hcallers in Hnodup.
    change (p :: w ++ [(caller, channel)])%list
      with ((p :: w) ++ [(caller, channel)])%list in Hnodup.
    rewrite fmap_app in Hnodup. apply NoDup_app in Hnodup as (_ & Hdisjoint & _).
    unfold on_end. simpl.
    rewrite bool_decide_eq_false_2; last first.
    { intros ->. apply (Hdisjoint p.2); [by left|by left]. }
    simpl. rewrite filter_app, filter_cons_False, filter_nil, app_nil_r by naive_solver.
    rewrite filter_all; [done|].
    intros x Hx ->. apply (Hdisjoint x.2); [|by left].
    right. by apply list_elem_of_fmap_2.
  - rewrite Hsettled by done. unfold on_end. simpl.
    by rewrite bool_decide_eq_true_2.
Qed.

End CallsFacts.
(** ** More on the button manager *)

Section ButtonsFacts.

Import ButtonManager.

Implicit Types (self : ButtonManager.t) (key : string) (h : Z) (i : nat).

(** Every button of the table has a place among the twelve counters. *)
Lemma index_in_range (b : Button) :
  exists i, index BUTTON_LIST b = Some i /\ (i < 12)%nat.
Proof. destruct b; eexists; (split; [reflexivity|lia]). Qed.

Lemma position_in_range key i : position key = Some i -> (i < 12)%nat.
Proof.
  unfold position. destruct (dict_get BUTTON_MAP key) as [b|]; [|done].
  destruct (index_in_range b) as (j & Hj & Hlt).
  change (index BUTTON_LIST b = Some i -> (i < 12)%nat). rewrite Hj.
  by intros [= <-].
Qed.

Lemma get_action_length self :
  length (button_timeout (get_action self).1) = length (button_timeout self)
  /\ length (get_action self).2 = length (button_timeout self).
Proof. simpl. by rewrite !length_fmap. Qed.

(** A press on a manager of twelve counters returns one of twelve. *)
Lemma button_pressed_twelve self key h :
  length (button_timeout self) = 12%nat ->
  exists self' records,
    button_pressed self (VStr key) h = Ok (self', records)
    /\ length (button_timeout self') = 12%nat.
Proof.
  intros Hlen. destruct (position key) as [i|] eqn:Hpos.
  - rewrite (button_pressed_ok _ _ _ i Hpos).
    + eexists _, _. split; [done|]. simpl. by rewrite length_insert.
    + rewrite Hlen. by eapply position_in_range.
  - unfold position, button_pressed in *.
    destruct (dict_get BUTTON_MAP key) as [b|]; [|by eexists _, _].
    destruct (index_in_range b) as (j & Hj & _).
    change (index BUTTON_LIST b = None) in Hpos. congruence.
Qed.

(** X6: from a fresh button manager, no sequence of presses of digits, with
    whatever timeouts, and of samples ever raises; twelve counters remain. *)
Theorem X6_button_manager_never_raises (ops : list Buttons.op) :
  exists self,
    Buttons.run init ops = Ok self
    /\ length (button_timeout self) = 12%nat.
Proof.
  assert (forall self, length (button_timeout self) = 12%nat ->
            exists self', Buttons.run self ops = Ok self'
                          /\ length (button_timeout self') = 12%nat) as Hrun.
  { induction ops as [|[key h|] ops IH]; intros self Hlen.
    - by exists self.
    - destruct (button_pressed_twelve self key h Hlen) as (self1 & records & Hpress & Hlen1).
      cbn [Buttons.run]. rewrite Hpress. by apply IH.
    - cbn [Buttons.run]. apply IH. by rewrite (proj1 (get_action_length self)). }
  by apply Hrun.
Qed.


Lemma dict_get_Some d key b : dict_get d key = Some b -> (key, b) ∈ d.
Proof.
  induction d as [|[k b'] d IH]; [done|]. simpl.
  destruct (String.eqb_spec k key) as [->|].
  - intros [= ->]. by left.
  - intros Hget. right. by apply IH.
Qed.

(** No two keys of the table share a counter. *)
Lemma position_inj k1 k2 i : position k1 = Some i -> position k2 = Some i -> k1 = k2.
Proof.
  unfold position. intros H1 H2.
  destruct (dict_get BUTTON_MAP k1) as [b1|] eqn:Hk1; [|done].
  destruct (dict_get BUTTON_MAP k2) as [b2|] eqn:Hk2; [|done].
  change (index BUTTON_LIST b1 = Some i) in H1.
  change (index BUTTON_LIST b2 = Some i) in H2.
  apply dict_get_Some in Hk1, Hk2. unfold BUTTON_MAP in Hk1, Hk2.
  assert (b1 = b2) as <-.
  { destruct b1, b2; try done; vm_compute in H1, H2; congruence. }
  clear H1 H2.
  repeat (apply elem_of_cons in Hk1 as [Hk1|Hk1];
          [injection Hk1 as -> ->|]);
    try (by apply elem_of_nil in Hk1);
    repeat (apply elem_of_cons in Hk2 as [Hk2|Hk2];
            [by (discriminate Hk2 || injection Hk2 as ->)|]);
    by apply elem_of_nil in Hk2.
Qed.

Lemma button_pressed_unmapped self key h :
  position key = None ->
  button_pressed self (VStr key) h = Ok (self, [(WARNING, not_found_message key)]).
Proof.
  unfold position, button_pressed.
  destruct (dict_get BUTTON_MAP key) as [b|]; [|done].
  intros Hnone. change (index BUTTON_LIST b = None) in Hnone.
  destruct (index_in_range b) as (j & Hj & _). congruence.
Qed.

Lemma button_pressed_out_of_range self key h i :
  position key = Some i ->
  (length (button_timeout self) <= i)%nat ->
  button_pressed self (VStr key) h = Raise IndexError.
Proof.
  unfold position, button_pressed. intros Hpos Hlen.
  destruct (dict_get BUTTON_MAP key) as [b|]; [|done].
  change (index BUTTON_LIST b = Some i) in Hpos. rewrite Hpos.
  by rewrite bool_decide_eq_false_2 by lia.
Qed.

(** X7: different keys have different counters, so two presses of different
    keys give the same button manager, or the same exception, in either
    order; a press of one key never changes the counter of another. *)
Theorem X7_presses_of_distinct_keys_commute self k1 k2 h1 h2 :
  k1 <> k2 ->
  Buttons.run self [Buttons.Press k1 h1; Buttons.Press k2 h2]
  = Buttons.run self [Buttons.Press k2 h2; Buttons.Press k1 h1]
  /\ (forall i self1 records,
        position k2 = Some i ->
        button_pressed self (VStr k1) h1 = Ok (self1, records) ->
        button_timeout self1 !! i = button_timeout self !! i).
Proof.
  intros Hne. split.
  - cbn [Buttons.run].
    destruct (position k1) as [i1|] eqn:Hp1; last first.
    { rewrite (button_pressed_unmapped self k1) by done.
      destruct (button_pressed self (VStr k2) h2) as [[self2 ?]|?]; [|done].
      by rewrite (button_pressed_unmapped self2 k1). }
    destruct (position k2) as [i2|] eqn:Hp2; last first.
    { rewrite (button_pressed_unmapped self k2) by done.
      destruct (button_pressed self (VStr k1) h1) as [[self1 ?]|?]; [|done].
      by rewrite (button_pressed_unmapped self1 k2). }
    assert (i1 <> i2) as Hi by (intros ->; by eapply Hne, position_inj).
    destruct (decide (i1 < length (button_timeout self))%nat) as [Hl1|Hl1];
      destruct (decide (i2 < length (button_timeout self))%nat) as [Hl2|Hl2].
    + rewrite (button_pressed_ok self k1 h1 i1), (button_pressed_ok self k2 h2 i2) by done.
      rewrite (button_pressed_ok _ k2 h2 i2), (button_pressed_ok _ k1 h1 i1)
        by (done || (simpl; by rewrite length_insert)).
      simpl. by rewrite list_insert_insert_ne.
    + rewrite (button_pressed_ok self k1 h1 i1) by done.
      rewrite !(button_pressed_out_of_range _ k2 h2 i2)
        by (done || (simpl; rewrite ?length_insert; lia)).
      done.
    + rewrite (button_pressed_ok self k2 h2 i2) by done.
      rewrite !(button_pressed_out_of_range _ k1 h1 i1)
        by (done || (simpl; rewrite ?length_insert; lia)).
      done.
    + by rewrite (button_pressed_out_of_range _ k1 h1 i1),
        (button_pressed_out_of_range _ k2 h2 i2) by (done || lia).
  - intros i self1 records Hp2 Hpress.
    destruct (position k1) as [i1|] eqn:Hp1.
    + destruct (button_pressed_mapped _ _ _ _ _ _ Hp1 Hpress) as (_ & -> & _).
      apply list_lookup_insert_ne. intros ->. by eapply Hne, position_inj.
    + rewrite button_pressed_unmapped in Hpress by done. by injection Hpress as <- _.
Qed.

Lemma X7_presses_of_distinct_keys_commute_witness :
  "4" <> "6"
  /\ Buttons.run init [Buttons.Press "4" 17; Buttons.Press "6" 17]
     = Buttons.run init [Buttons.Press "6" 17; Buttons.Press "4" 17].
Proof.
  assert ("4" <> "6") as Hne by discriminate.
  split; [exact Hne|].
  exact (proj1 (X7_presses_of_distinct_keys_commute init "4" "6" 17 17 Hne)).
Defined.

(** X8: one call of [get_action] returns one reading for each counter; a
    button reads active exactly when its counter was at least 2 before the
    call, the counter is one less after it, but never below zero, and no
    counter is negative after a call. *)
Theorem X8_get_action_reads_and_decays self :
  length (get_action self).2 = length (button_timeout self)
  /\ length (button_timeout (get_action self).1) = length (button_timeout self)
  /\ Forall (fun y => 0 <= y) (button_timeout (get_action self).1)
  /\ (forall i x,
        button_timeout self !! i = Some x ->
        button_timeout (get_action self).1 !! i = Some (Z.max (x - 1) 0)
        /\ (get_action self).2 !! i = Some (bool_decide (2 <= x))).
Proof.
  split; [apply get_action_length|]. split; [apply get_action_length|].
  simpl. split.
  - apply Forall_fmap, Forall_forall. intros x _. simpl. lia.
  - intros i x Hx. rewrite !list_lookup_fmap, Hx. simpl.
    split; [done|]. f_equal. apply bool_decide_ext. lia.
Qed.

End ButtonsFacts.
(** ** More on the frame loop *)

Section TracesFacts.

Import Doom.

Variable DOOM_FPS : Z.
Variable format_phone_number : string -> string.

Local Abbreviation step := (Doom.step DOOM_FPS format_phone_number).
Local Abbreviation run := (Doom.run DOOM_FPS format_phone_number).
Local Abbreviation dispatch := (Doom.dispatch DOOM_FPS format_phone_number).
Local Abbreviation loop_head := (Doom.loop_head DOOM_FPS).
Local Abbreviation end_of_tick := (Doom.end_of_tick DOOM_FPS).
Local Abbreviation open_stream := (Doom.open_stream DOOM_FPS).
Local Abbreviation poll := (Doom.poll DOOM_FPS).
Local Abbreviation drain := (Doom.drain DOOM_FPS).

Implicit Types (self : Doom.t) (e : tick) (es : list tick) (acts : list action).

Ltac tally :=
  unfold Traces.balanced in *; cbn [fst snd] in *;
  rewrite ?count_cons, ?count_app, ?count_cons, ?count_nil;
  cbn [is_open is_close is_frame Traces.is_make Traces.is_get Traces.is_exception];
  try lia.

Lemma stop_balanced self x : Traces.balanced 0 (stop self x).
Proof. done. Qed.

Lemma poll_balanced self : Traces.balanced 0 (poll self).
Proof. unfold Doom.poll, true_div. by destruct (DOOM_FPS =? 0). Qed.

Lemma drain_balanced self now : Traces.balanced 1 (drain self now).
Proof. unfold Doom.drain, true_div. by destruct (DOOM_FPS =? 0). Qed.

Lemma loop_head_balanced self e : Traces.balanced 1 (loop_head self e).
Proof.
  unfold Doom.loop_head.
  destruct (negb (idle self) || (0 <? idle_frames_left self)).
  - destruct (episode_finished e);
      match goal with |- context [drain ?s ?n] =>
        pose proof (drain_balanced s n) as Hd; destruct (drain s n) as [s' a'] end;
      tally.
  - pose proof (poll_balanced self) as Hp. destruct (poll self) as [s' a'].
    tally.
Qed.

Lemma end_of_tick_balanced self e : Traces.balanced 1 (end_of_tick self e).
Proof.
  unfold Doom.end_of_tick. simpl.
  match goal with |- context [loop_head ?s e] =>
    pose proof (loop_head_balanced s e) as Hl; destruct (loop_head s e) as [s' a'] end.
  tally.
Qed.

Lemma open_stream_balanced self e : Traces.balanced 0 (open_stream self e).
Proof.
  unfold Doom.open_stream.
  match goal with |- context [loop_head ?s e] =>
    pose proof (loop_head_balanced s e) as Hl; destruct (loop_head s e) as [s' a'] end.
  tally.
Qed.

Lemma step_balanced self e : Traces.balanced (Traces.inside_with self) (step self e).
Proof.
  unfold Doom.step, Traces.inside_with at 1.
  destruct (at_ self) eqn:Hat; simpl.
  - destruct (queue self ++ arrivals e)%list as [|event q'];
      [|destruct (expires e)]; try apply poll_balanced. done.
  - destruct (queue self ++ arrivals e)%list as [|event q']; [done|].
    match goal with |- context [open_stream ?s e] =>
      pose proof (open_stream_balanced s e) as Ho; destruct (open_stream s e) as [s' a'] end.
    tally.
  - destruct (queue self ++ arrivals e)%list as [|event q'];
      [|destruct (expires e)]; try apply end_of_tick_balanced.
    destruct (dispatch _ event) as [[self1 acts1]|x] eqn:Hd.
    + apply dispatch_frame in Hd as (_ & _ & _ & _ & _ & Hopen & Hclose).
      pose proof (drain_balanced self1 (clock e)) as Hdr.
      destruct (drain self1 (clock e)) as [s' a'].
      tally.
    + done.
  - unfold Traces.balanced, Traces.inside_with. simpl. by rewrite Hat.
Qed.

(** X9: over any run of the frame loop, from any state and at any frame
    rate, the stream is opened and closed in turn: the opens and the closes
    are as many, but for the one stream that is open when the run starts or
    ends inside the [with] block.  A run that ends outside of it, stopped by
    an exception or not, has closed every stream it opened. *)
Theorem X9_every_opened_stream_is_closed es : forall self,
  (count is_open (run self es).2 + Traces.inside_with self
   = count is_close (run self es).2 + Traces.inside_with (run self es).1)%nat.
Proof.
  induction es as [|e es IH]; intros self; [done|].
  rewrite run_cons. pose proof (step_balanced self e) as Hstep.
  destruct (step self e) as [self1 acts1]. specialize (IH self1).
  destruct (run self1 es) as [self2 acts2].
  tally.
Qed.


Section Running.

Hypothesis fps_nonzero : DOOM_FPS <> 0.

Lemma dispatched_app acts1 acts2 :
  dispatched (acts1 ++ acts2) = (dispatched acts1 ++ dispatched acts2)%list.
Proof. apply omap_app. Qed.

Lemma dispatched_log (records : list log_record) : dispatched (Log <$> records) = [].
Proof. by induction records. Qed.

(** The loop, from its test to the next wait, neither touches the queue nor
    hands an event to a dispatch. *)
Lemma loop_head_queue self e :
  queue (loop_head self e).1 = queue self
  /\ dispatched (loop_head self e).2 = []
  /\ count Traces.is_get (loop_head self e).2 = 0%nat.
Proof.
  destruct (streaming self) eqn:Hs.
  - rewrite (loop_head_continues _ fps_nonzero) by done.
    by destruct (episode_finished e).
  - by rewrite (loop_head_exits _ fps_nonzero).
Qed.

Lemma dispatch_queue self event self' acts :
  dispatch self event = Ok (self', acts) ->
  queue self' = queue self /\ dispatched acts = []
  /\ count Traces.is_get acts = 0%nat.
Proof.
  unfold Doom.dispatch. destruct event.1.
  - by intros [= <- <-].
  - by intros [= <- <-].
  - by intros [= <- <-].
  - destruct (ButtonManager.button_pressed _ _ _) as [[bm records]|x]; [|done].
    intros [= <- <-]. rewrite dispatched_log, count_log; done.
Qed.

Lemma dispatch_first_queue self event :
  queue (dispatch_first DOOM_FPS format_phone_number self event) = queue self.
Proof. unfold dispatch_first. by destruct event.1. Qed.

(** What one step takes from the queue and what it hands to a dispatch. *)
Lemma step_takes self e :
  at_ (step self e).1 <> Stopped ->
  exists taken,
    (queue self ++ arrivals e)%list = (taken ++ queue (step self e).1)%list
    /\ dispatched (step self e).2 `sublist_of` taken
    /\ length taken
       = (length (dispatched (step self e).2) + count Traces.is_get (step self e).2)%nat.
Proof.
  unfold Doom.step. destruct (at_ self) eqn:Hat.
  - destruct (queue self ++ arrivals e)%list as [|event q'] eqn:Hq;
      [|destruct (expires e)]; rewrite ?(poll_ok _ fps_nonzero); intros _.
    + exists []. split; [done|]. split; [apply sublist_nil_l|done].
    + exists []. split; [done|]. split; [apply sublist_nil_l|done].
    + exists [event]. split; [done|]. split; [apply sublist_nil_l|done].
  - destruct (queue self ++ arrivals e)%list as [|event q'] eqn:Hq; intros _.
    + exists []. split; [done|]. split; [apply sublist_nil_l|done].
    + unfold Doom.open_stream.
      match goal with |- context [loop_head ?s e] =>
        destruct (loop_head_queue s e) as (Hqueue & Hnone & Hget);
        destruct (loop_head s e) as [s' a'] end.
      exists [event]. cbn [fst snd] in *.
      rewrite Hqueue, dispatch_first_queue.
      change (dispatched (LogEvent event :: StreamOpen :: NewEpisode :: a'))
        with (event :: dispatched a').
      rewrite Hnone, !count_cons, Hget. done.
  - assert (forall s', queue s' = (queue self ++ arrivals e)%list ->
              exists taken,
                (queue self ++ arrivals e)%list
                = (taken ++ queue (end_of_tick s' e).1)%list
                /\ dispatched (end_of_tick s' e).2 `sublist_of` taken
                /\ length taken
                   = (length (dispatched (end_of_tick s' e).2)
                      + count Traces.is_get (end_of_tick s' e).2)%nat) as Htick.
    { intros s0 Hs0. unfold Doom.end_of_tick. simpl.
      match goal with |- context [loop_head ?s e] =>
        destruct (loop_head_queue s e) as (Hqueue & Hnone & Hget);
        destruct (loop_head s e) as [s' a'] end.
      exists []. cbn [fst snd] in *.
      change (dispatched (MakeAction ?v :: a')) with (dispatched a').
      rewrite Hqueue, Hnone, count_cons, Hget. simpl. by rewrite Hs0. }
    destruct (queue self ++ arrivals e)%list as [|event q'] eqn:Hq;
      [|destruct (expires e)].
    + intros _. by apply Htick.
    + intros _. by apply Htick.
    + destruct (dispatch _ event) as [[self1 acts1]|x] eqn:Hd; [|done].
      rewrite (drain_ok _ fps_nonzero). intros _.
      apply dispatch_queue in Hd as (Hqueue & Hnone & Hget).
      exists [event]. cbn [fst snd].
      change (dispatched (LogEvent event :: acts1 ++ ?l)%list)
        with (event :: dispatched (acts1 ++ l)%list).
      rewrite dispatched_app, Hnone, !count_cons, count_app, Hget. simpl.
      by rewrite Hqueue.
  - simpl. by rewrite Hat.
Qed.

Lemma run_stopped es self : at_ self = Stopped -> run self es = (self, []).
Proof.
  induction es as [|e es IH]; [done|]. intros Hat.
  rewrite run_cons. unfold Doom.step. by rewrite Hat, IH.
Qed.

(** X10: in a run that no exception stops, the loop takes the items from the
    queue in the order in which they were put, each at most once, and leaves
    the rest in the queue; it hands to a dispatch the items it has taken, in
    that order, but for those that the poll of line 256 took, one for each
    time it leaves the poll. *)
Theorem X10_queue_is_consumed_in_order es : forall self,
  at_ (run self es).1 <> Stopped ->
  exists taken,
    Traces.supply self es = (taken ++ queue (run self es).1)%list
    /\ dispatched (run self es).2 `sublist_of` taken
    /\ length taken
       = (length (dispatched (run self es).2)
          + count Traces.is_get (run self es).2)%nat.
Proof.
  unfold Traces.supply.
  induction es as [|e es IH]; intros self Hrun.
  - exists []. simpl. by rewrite app_nil_r.
  - rewrite run_cons in *.
    pose proof (step_takes self e) as Hstep.
    destruct (step self e) as [self1 acts1]. specialize (IH self1).
    destruct (decide (at_ self1 = Stopped)) as [Hstopped|Hgoes].
    { rewrite (run_stopped es self1 Hstopped) in Hrun. by simpl in Hrun. }
    destruct (run self1 es) as [self2 acts2]. cbn [fst snd] in *.
    destruct (Hstep Hgoes) as (taken1 & Hq1 & Hsub1 & Hlen1).
    destruct (IH Hrun) as (taken2 & Hq2 & Hsub2 & Hlen2).
    exists (taken1 ++ taken2)%list.
    rewrite fmap_cons, concat_cons, dispatched_app, count_app, !length_app.
    split; [|split; [by apply sublist_app|lia]].
    by rewrite (app_assoc (queue self)), Hq1, <- !app_assoc, Hq2.
Qed.


(** A dispatch calls [new_episode] and the logger, nothing else. *)
Lemma dispatch_count f self event self' acts :
  f NewEpisode = false -> (forall r, f (Log r) = false) ->
  dispatch self event = Ok (self', acts) ->
  count f acts = 0%nat.
Proof.
  intros Hnew Hlog. unfold Doom.dispatch. destruct event.1.
  - by intros [= <- <-].
  - intros [= <- <-]. by rewrite count_cons, Hnew.
  - intros [= <- <-]. by rewrite count_cons, Hnew.
  - destruct (ButtonManager.button_pressed _ _ _) as [[bm records]|x]; [|done].
    intros [= <- <-]. by apply count_log.
Qed.

Lemma end_of_tick_makes self e :
  at_ (end_of_tick self e).1 = Draining ->
  count Traces.is_make (end_of_tick self e).2 = frames_sent (end_of_tick self e).2
  /\ count is_close (end_of_tick self e).2 = 0%nat.
Proof.
  unfold Doom.end_of_tick. simpl.
  match goal with |- context [loop_head ?s _] => destruct (streaming s) eqn:Hstr end.
  - rewrite (loop_head_continues _ fps_nonzero) by done.
    by destruct (episode_finished e).
  - by rewrite (loop_head_exits _ fps_nonzero).
Qed.

Lemma step_makes self e :
  at_ self = Draining ->
  at_ (step self e).1 = Draining ->
  count Traces.is_make (step self e).2 = frames_sent (step self e).2
  /\ count is_close (step self e).2 = 0%nat.
Proof.
  intros Hat. unfold Doom.step. rewrite Hat.
  destruct (queue self ++ arrivals e)%list as [|event q'];
    [|destruct (expires e)]; try apply end_of_tick_makes.
  destruct (dispatch _ event) as [[self1 acts1]|x] eqn:Hd; [|done].
  rewrite (drain_ok _ fps_nonzero). intros _. cbn [fst snd].
  pose proof (dispatch_count Traces.is_make _ _ _ _ eq_refl (fun _ => eq_refl) Hd).
  pose proof (dispatch_count is_frame _ _ _ _ eq_refl (fun _ => eq_refl) Hd).
  pose proof (dispatch_count is_close _ _ _ _ eq_refl (fun _ => eq_refl) Hd).
  unfold frames_sent. tally.
Qed.

(** X11: as long as the stream stays open, the game is advanced by one
    [make_action] for each frame sent, and by none else. *)
Theorem X11_one_make_action_per_frame es : forall self,
  at_ self = Draining ->
  at_ (run self es).1 = Draining ->
  count is_open (run self es).2 = 0%nat ->
  count Traces.is_make (run self es).2 = frames_sent (run self es).2
  /\ count is_close (run self es).2 = 0%nat.
Proof.
  induction es as [|e es IH]; intros self Hat Hat' Hopen; [done|].
  rewrite run_cons in *. pose proof (step_makes self e Hat) as Hstep.
  destruct (step self e) as [self1 acts1] eqn:Hs1.
  destruct (run self1 es) as [self2 acts2] eqn:Hs2. cbn [fst snd] in *.
  rewrite count_app in Hopen.
  destruct (decide (at_ self1 = Draining)) as [Hat1|Hat1]; last first.
  { pose proof (run_into_draining _ _ fps_nonzero _ _ _ _ Hat1 Hs2 Hat'). lia. }
  specialize (IH self1 Hat1). rewrite Hs2 in IH. cbn [fst snd] in IH.
  destruct (Hstep Hat1) as [Hm1 Hc1]. destruct IH as [Hm2 Hc2]; [done|lia|].
  unfold frames_sent in *. rewrite !count_app. lia.
Qed.





(** X13: when NO_PLAYER is dispatched between two frames, or GOT_CONNECTION
    while the loop is idle, and nothing arrives afterwards, exactly
    [DOOM_FPS * 15] more frames are sent; the tick after them closes the
    stream and the loop is back at the poll of line 256. *)
Theorem X13_grace_is_fifteen_seconds self e event es1 e2 :
  at_ self = Draining ->
  (queue self ++ arrivals e)%list = [event] ->
  expires e = false ->
  event.1 = NO_PLAYER \/ (event.1 = GOT_CONNECTION /\ idle self = true) ->
  Z.of_nat (length es1) = DOOM_FPS * 15 ->
  Forall quiet (es1 ++ [e2]) ->
  let r := run self (e :: es1 ++ [e2]) in
  frames_sent r.2 = length es1
  /\ count is_close r.2 = 1%nat
  /\ at_ r.1 = Polling.
Proof.
  intros Hat Hq Hexp Hevent Hlen Hquiet r. unfold r.
  apply Forall_app in Hquiet as [Hes1 He2].
  apply Forall_cons in He2 as [He2 _].
  assert (exists self1 acts1,
            step self e = (self1, acts1)
            /\ at_ self1 = Draining /\ idle self1 = true /\ queue self1 = []
            /\ idle_frames_left self1 = DOOM_FPS * 15
            /\ frames_sent acts1 = 0%nat /\ count is_close acts1 = 0%nat)
    as (self1 & acts1 & Hstep & Hat1 & Hidle1 & Hq1 & Hleft1 & Hsent1 & Hclose1).
  { unfold Doom.step. rewrite Hat, Hq, Hexp. unfold Doom.dispatch.
    destruct Hevent as [-> | [-> Hidle]]; rewrite (drain_ok _ fps_nonzero).
    - by eexists _, _.
    - eexists _, _. split; [done|]. simpl. by rewrite Hidle. }
  destruct (run_decay _ format_phone_number fps_nonzero es1 self1)
    as (self2 & acts2 & Hrun & Hat2 & Hidle2 & Hq2 & Hleft2 & Hsent2 & Hclose2);
    [done..|lia|].
  destruct (step_rest _ format_phone_number fps_nonzero self2 e2)
    as (self3 & Hrest & Hat3 & Hq3); [done..|lia|].
  rewrite run_cons, Hstep, run_app, Hrun. cbn [Doom.run]. rewrite Hrest.
  cbn [fst snd]. unfold frames_sent in *.
  rewrite !count_app, Hsent1, Hsent2, Hclose1, Hclose2. done.
Qed.

End Running.

End TracesFacts.

(** X14: at a frame rate of 0 the first poll raises [ZeroDivisionError]:
    the game is initialised and advanced once, the exception is logged, the
    event loop is stopped and the game closed; no stream is ever opened, and
    nothing that arrives later is looked at. *)
Theorem X14_zero_frame_rate_stops_at_once (format_phone_number : string -> string)
    (es : list Doom.tick) :
  (Doom.boot 0 format_phone_number).2
  = [Doom.GameInit; Doom.AdvanceAction; Doom.LogException ZeroDivisionError;
     Doom.LoopStop; Doom.GameClose]
  /\ Doom.at_ (Doom.boot 0 format_phone_number).1 = Doom.Stopped
  /\ Doom.run 0 format_phone_number (Doom.boot 0 format_phone_number).1 es
     = ((Doom.boot 0 format_phone_number).1, []).
Proof.
  split; [done|]. split; [done|]. by apply run_stopped.
Qed.

(** ** The extra properties at concrete inputs *)

Lemma X3_only_active_caller_plays_witness :
  let ops := [Asterisk.Arrive "A" "1"; Asterisk.Arrive "B" "2"] in
  let self := Asterisk.run (Asterisk.init false) ops in
  Asterisk.fresh_arrivals [] ops
  /\ Asterisk.on_dtmf self "1" "5" = [Asterisk.Put (BUTTON_PRESSED, VStr "5")]
  /\ Asterisk.on_dtmf self "2" "5" = [].
Proof.
  intros ops self.
  assert (Asterisk.fresh_arrivals [] ops) as Hfresh.
  { simpl. repeat split; apply (bool_decide_unpack _); by vm_compute. }
  split; [exact Hfresh|].
  pose proof (X3_only_active_caller_plays false ops Hfresh) as (Hactive & Hwaiting & _).
  split.
  - exact (Hactive ("A", "1") "5" eq_refl).
  - apply (Hwaiting ("B", "2") "5"). by left.
Defined.

Lemma X4_departure_of_waiting_caller_witness :
  let self := {| Asterisk.simwood := false; Asterisk.playing := Some ("A", "1");
                 Asterisk.waiting := [("B", "2"); ("C", "3")] |} in
  Asterisk.playing self = Some ("A", "1")
  /\ "2" <> ("A", "1").2
  /\ exists self1,
       Asterisk.on_end self "2" = Ok (self1, [])
       /\ Asterisk.on_end self1 "2" = Ok (self1, [])
       /\ Asterisk.playing self1 = Some ("A", "1").
Proof.
  intros self.
  assert ("2" <> ("A", "1").2) as Hne by discriminate.
  split; [reflexivity|]. split; [exact Hne|].
  destruct (X4_departure_of_waiting_caller self ("A", "1") "2" eq_refl Hne)
    as (self1 & Hend & Hagain & Hplaying & _).
  exists self1. split; [exact Hend|]. split; [exact Hagain|exact Hplaying].
Defined.

Lemma X5_arrive_then_depart_witness :
  let ops := [Asterisk.Arrive "A" "1"] in
  Asterisk.fresh_arrivals [] (ops ++ [Asterisk.Arrive "B" "2"])
  /\ Asterisk.run (Asterisk.init false)
       (ops ++ [Asterisk.Arrive "B" "2"; Asterisk.Depart "2"])
     = Asterisk.run (Asterisk.init false) ops.
Proof.
  intros ops.
  assert (Asterisk.fresh_arrivals [] (ops ++ [Asterisk.Arrive "B" "2"])) as Hfresh.
  { simpl. repeat split; apply (bool_decide_unpack _); by vm_compute. }
  split; [exact Hfresh|].
  exact (X5_arrive_then_depart false ops "B" "2" Hfresh).
Defined.

Lemma X10_queue_is_consumed_in_order_witness :
  let es := [ Doom.arriving [(GOT_CONNECTION, VNone)] 1;
              Doom.arriving [(NEW_PLAYER, VStr "+441632960000");
                             (BUTTON_PRESSED, VStr "5")] (7 # 2);
              Doom.silent (71 # 20) ] in
  let self := (Doom.boot 35 id).1 in
  Doom.at_ (Doom.run 35 id self es).1 <> Doom.Stopped
  /\ exists taken,
       Traces.supply self es = (taken ++ Doom.queue (Doom.run 35 id self es).1)%list
       /\ Doom.dispatched (Doom.run 35 id self es).2 `sublist_of` taken
       /\ length taken
          = (length (Doom.dispatched (Doom.run 35 id self es).2)
             + Doom.count Traces.is_get (Doom.run 35 id self es).2)%nat.
Proof.
  intros es self.
  assert (Doom.at_ (Doom.run 35 id self es).1 <> Doom.Stopped) as Hgoes
    by (vm_compute; discriminate).
  split; [exact Hgoes|].
  exact (X10_queue_is_consumed_in_order 35 id fps_35_nonzero es self Hgoes).
Defined.

Lemma X11_one_make_action_per_frame_witness :
  let es := silence (7 # 2) 3 in
  Doom.at_ playing_at_frame_1 = Doom.Draining
  /\ Doom.at_ (Doom.run 35 id playing_at_frame_1 es).1 = Doom.Draining
  /\ Doom.count Doom.is_open (Doom.run 35 id playing_at_frame_1 es).2 = 0%nat
  /\ Doom.count Traces.is_make (Doom.run 35 id playing_at_frame_1 es).2
     = Doom.frames_sent (Doom.run 35 id playing_at_frame_1 es).2.
Proof.
  intros es.
  assert (Doom.at_ (Doom.run 35 id playing_at_frame_1 es).1 = Doom.Draining)
    as Hat' by reflexivity.
  assert (Doom.count Doom.is_open (Doom.run 35 id playing_at_frame_1 es).2 = 0%nat)
    as Hopen by reflexivity.
  split; [reflexivity|]. split; [exact Hat'|]. split; [exact Hopen|].
  exact (proj1 (X11_one_make_action_per_frame 35 id fps_35_nonzero es
                  playing_at_frame_1 eq_refl Hat' Hopen)).
Defined.


Lemma X13_grace_is_fifteen_seconds_witness :
  let e := Doom.arriving [(NO_PLAYER, VNone)] ((7 # 2) + (1 # 70))%Q in
  let es1 := silence 4 525 in
  let e2 := Doom.silent 20 in
  let r := Doom.run 35 id playing_at_frame_1 (e :: es1 ++ [e2]) in
  Z.of_nat (length es1) = 35 * 15
  /\ Forall Doom.quiet (es1 ++ [e2])
  /\ Doom.frames_sent r.2 = length es1
  /\ Doom.count Doom.is_close r.2 = 1%nat
  /\ Doom.at_ r.1 = Doom.Polling.
Proof.
  intros e es1 e2 r.
  assert (Z.of_nat (length es1) = 35 * 15) as Hlen by reflexivity.
  assert (Forall Doom.quiet (es1 ++ [e2])) as Hquiet.
  { apply Forall_app. split; [|by repeat constructor].
    unfold es1, silence. apply Forall_fmap, Forall_forall. by intros. }
  split; [exact Hlen|]. split; [exact Hquiet|].
  exact (X13_grace_is_fifteen_seconds 35 id fps_35_nonzero playing_at_frame_1 e
           (NO_PLAYER, VNone) es1 e2 eq_refl eq_refl eq_refl (or_introl eq_refl)
           Hlen Hquiet).
Defined.

(** ** The number that is drawn *)

Section OverlayFacts.

Import Overlay.

Implicit Types (s m r : list Ascii.ascii) (c : Ascii.ascii) (n : nat).

Lemma num_digits_app (s1 s2 : list Ascii.ascii) : num_digits (s1 ++ s2)%list = (num_digits s1 + num_digits s2)%nat.
Proof. unfold num_digits. by rewrite filter_app, length_app. Qed.

Lemma num_digits_cons c s :
  num_digits (c :: s) = ((if is_digit c then 1 else 0) + num_digits s)%nat.
Proof.
  unfold num_digits. rewrite filter_cons.
  destruct (is_digit c); by case_decide.
Qed.

Lemma groups_0 s : groups 0 s = Some ([], s).
Proof. by destruct s. Qed.

(** What a match of [n] groups has matched. *)
Lemma groups_inv s : forall n m r,
  groups n s = Some (m, r) ->
  s = (m ++ r)%list
  /\ num_digits m = n
  /\ (n <> 0%nat -> exists m' c, m = (m' ++ [c])%list /\ is_digit c = true).
Proof.
  induction s as [|c s IH]; intros [|n] m r Hg; simpl in Hg; try done.
  - by injection Hg as <- <-.
  - by injection Hg as <- <-.
  - destruct (is_digit c) eqn:Hc.
    + destruct (groups n s) as [[m1 r1]|] eqn:Hg1; [|done].
      injection Hg as <- <-. destruct (IH _ _ _ Hg1) as (-> & Hn & Hlast).
      split; [done|]. split; [by rewrite num_digits_cons, Hc, Hn|].
      intros _. destruct n as [|n].
      * rewrite groups_0 in Hg1. injection Hg1 as Hm1 _. rewrite <- Hm1. by exists [], c.
      * destruct Hlast as (m' & c' & -> & Hc'); [done|]. by exists (c :: m'), c'.
    + destruct (groups (S n) s) as [[m1 r1]|] eqn:Hg1; [|done].
      injection Hg as <- <-. destruct (IH _ _ _ Hg1) as (-> & Hn & Hlast).
      split; [done|]. split; [by rewrite num_digits_cons, Hc, Hn|].
      intros _. destruct Hlast as (m' & c' & -> & Hc'); [done|]. by exists (c :: m'), c'.
Qed.

(** [n] groups match when there are [n] digits. *)
Lemma groups_enough s : forall n, (n <= num_digits s)%nat -> is_Some (groups n s).
Proof.
  induction s as [|c s IH]; intros [|n] Hn; try done.
  - unfold num_digits in Hn. simpl in Hn. lia.
  - rewrite num_digits_cons in Hn. simpl.
    destruct (is_digit c).
    + destruct (IH n) as [[m1 r1] ->]; [lia|]. done.
    + destruct (IH (S n)) as [[m1 r1] ->]; [lia|]. done.
Qed.

Lemma at_dollar_digit_free r : at_dollar r = true -> num_digits r = 0%nat.
Proof.
  destruct r as [|c [|??]]; try done. simpl. intros Hc%bool_decide_eq_true.
  unfold num_digits. rewrite filter_cons_False; [done|].
  unfold is_digit. rewrite Hc. done.
Qed.


Lemma ends_with_digit_has_digit s : ends_with_digit s -> (1 <= num_digits s)%nat.
Proof.
  intros (c & Hlast & Hc). apply last_Some in Hlast as [s' ->].
  rewrite num_digits_app, num_digits_cons, Hc. lia.
Qed.

Lemma ends_with_digit_app s1 s2 :
  s2 <> [] -> ends_with_digit (s1 ++ s2) <-> ends_with_digit s2.
Proof.
  intros Hs2. unfold ends_with_digit. rewrite last_app.
  destruct (last s2) as [c|] eqn:Hlast; [done|].
  by apply last_None in Hlast.
Qed.

(** The unfolding of [search_tail]. *)
Lemma search_tail_eq n s :
  search_tail n s
  = match groups n s with
    | Some (m, r) =>
        if at_dollar r then Some m
        else match s with [] => None | _ :: s' => search_tail n s' end
    | None => match s with [] => None | _ :: s' => search_tail n s' end
    end.
Proof.
  destruct s as [|c s]; simpl.
  - destruct n; [done|done].
  - destruct (groups n (c :: s)) as [[m r]|] eqn:Hg; simpl in Hg; rewrite Hg;
      [by destruct (at_dollar r)|done].
Qed.

(** A text of [n] digits that ends with a digit is [n] groups, whole. *)
Lemma groups_whole n s :
  num_digits s = n -> ends_with_digit s -> groups n s = Some (s, []).
Proof.
  intros Hn Hend.
  destruct (groups_enough s n) as [[m r] Hg]; [lia|].
  destruct (groups_inv _ _ _ _ Hg) as (Hs & Hm & _).
  assert (num_digits r = 0%nat) as Hr.
  { rewrite Hs, num_digits_app in Hn. lia. }
  destruct (decide (r = [])) as [->|Hne].
  - by rewrite Hg, Hs, app_nil_r.
  - rewrite Hs in Hend. apply ends_with_digit_app in Hend; [|done].
    apply ends_with_digit_has_digit in Hend. lia.
Qed.

(** A match that reaches [$] in a text that ends with a digit is the whole
    text. *)
Lemma groups_to_end n s m r :
  ends_with_digit s ->
  groups n s = Some (m, r) -> at_dollar r = true ->
  num_digits s = n.
Proof.
  intros Hend Hg Hdollar.
  destruct (groups_inv _ _ _ _ Hg) as (Hs & Hm & _).
  by rewrite Hs, num_digits_app, Hm, (at_dollar_digit_free r).
Qed.

(** The search for the last [n] digits in a text that ends with a digit:
    the shortest end of the text that has [n] digits, taken as far to the left
    as no digit is met. *)
Lemma search_tail_digits n s :
  (1 <= n)%nat -> (n <= num_digits s)%nat -> ends_with_digit s ->
  exists pre t,
    s = (pre ++ t)%list
    /\ search_tail n s = Some t
    /\ num_digits t = n
    /\ ends_with_digit t
    /\ (pre = [] \/ ends_with_digit pre).
Proof.
  intros Hn. induction s as [|c s IH]; intros Hdigits Hend.
  { apply ends_with_digit_has_digit in Hend. unfold num_digits in Hend.
    simpl in Hend. lia. }
  destruct (decide (num_digits (c :: s) = n)) as [Heq|Hmore].
  - exists [], (c :: s). rewrite search_tail_eq, (groups_whole n) by done.
    simpl. by repeat split; try left.
  - assert (search_tail n (c :: s) = search_tail n s) as Hnext.
    { rewrite search_tail_eq.
      destruct (groups n (c :: s)) as [[m r]|] eqn:Hg; [|done].
      destruct (at_dollar r) eqn:Hdollar; [|done].
      by pose proof (groups_to_end _ _ _ _ Hend Hg Hdollar). }
    rewrite num_digits_cons in Hdigits, Hmore.
    assert (s <> []) as Hs.
    { intros ->. unfold num_digits in *. simpl in *. destruct (is_digit c); lia. }
    assert (ends_with_digit s) as Hend'.
    { by apply (ends_with_digit_app [c] s). }
    destruct IH as (pre & t & Hsplit & Hsearch & Ht & Htend & Hpre);
      [destruct (is_digit c); lia|done|].
    exists (c :: pre), t. rewrite Hnext, Hsearch, Hsplit.
    repeat split; try done. right.
    destruct Hpre as [->|Hpre].
    + simpl in Hsplit. subst s. exists c. split; [done|].
      destruct (is_digit c); [done|lia].
    + by apply (ends_with_digit_app [c] pre); [intros ->; destruct Hpre as (?&?&?)|].
Qed.


Lemma search_tail_0 s : search_tail 0 s = Some [].
Proof.
  induction s as [|c s IH]; [done|].
  rewrite search_tail_eq, groups_0. by destruct (at_dollar (c :: s)).
Qed.

(** What a search for the last [n] digits has found, in any text. *)
Lemma search_tail_inv n s : forall t,
  search_tail n s = Some t ->
  exists pre r,
    s = (pre ++ t ++ r)%list /\ at_dollar r = true
    /\ (n <> 0%nat -> ends_with_digit t).
Proof.
  induction s as [|c s IH]; intros t; rewrite search_tail_eq.
  - destruct (groups n []) as [[m r]|] eqn:Hg; [|done].
    destruct (at_dollar r) eqn:Hdollar; [|done]. intros [= <-].
    destruct (groups_inv _ _ _ _ Hg) as (Hs & _ & Hlast).
    exists [], r. repeat split; try done.
    intros Hn. destruct (Hlast Hn) as (m' & c & -> & Hc).
    exists c. by rewrite last_snoc.
  - assert (search_tail n s = Some t ->
            exists pre r, c :: s = (pre ++ t ++ r)%list /\ at_dollar r = true
                          /\ (n <> 0%nat -> ends_with_digit t)) as Hnext.
    { intros Hs. destruct (IH _ Hs) as (pre & r & -> & Hdollar & Hend).
      by exists (c :: pre), r. }
    destruct (groups n (c :: s)) as [[m r]|] eqn:Hg; [|done].
    destruct (at_dollar r) eqn:Hdollar; [|done]. intros [= <-].
    destruct (groups_inv _ _ _ _ Hg) as (Hs & _ & Hlast).
    exists [], r. repeat split; try done.
    intros Hn. destruct (Hlast Hn) as (m' & c' & -> & Hc).
    exists c'. by rewrite last_snoc.
Qed.

Lemma halves (d : nat) :
  (6 <= d)%nat ->
  let nt := Z.to_nat (Z.max ((Z.of_nat d - 4) / 2) 0) in
  let nh := Z.to_nat (Z.max (Z.of_nat d - 4 - (Z.of_nat d - 4) / 2) 0) in
  (1 <= nt)%nat /\ (1 <= nh)%nat /\ (nh + 4 + nt = d)%nat /\ (nt <= nh <= nt + 1)%nat.
Proof. intros Hd nt nh. unfold nt, nh. Z.div_mod_to_equations. lia. Qed.

(** X15: a formatted number of six digits or more that ends with a digit is
    drawn with four digits replaced by X and nothing else changed: the text
    is a head, a middle and a tail, the tail holding the last half (rounded
    down) of the other digits and the head the first half (rounded up), the
    middle holding exactly four digits and ending with one; what is drawn is
    the head, the middle with each digit turned into X, and the tail. *)
Theorem X15_middle_four_digits_hidden s :
  (6 <= num_digits s)%nat ->
  ends_with_digit s ->
  exists head middle tail,
    s = (head ++ middle ++ tail)%list
    /\ obfuscate s = Shown (head ++ (redact <$> middle) ++ tail)
    /\ num_digits middle = 4%nat
    /\ Z.of_nat (num_digits tail) = (Z.of_nat (num_digits s) - 4) / 2
    /\ (num_digits head + 4 + num_digits tail = num_digits s)%nat
    /\ ends_with_digit head /\ ends_with_digit middle /\ ends_with_digit tail
    /\ length (head ++ (redact <$> middle) ++ tail) = length s.
Proof.
  intros Hd Hend. unfold obfuscate.
  destruct (halves _ Hd) as (Hnt & Hnh & Hsum & _).
  set (nt := Z.to_nat (Z.max ((Z.of_nat (num_digits s) - 4) / 2) 0)) in *.
  set (nh := Z.to_nat (Z.max (Z.of_nat (num_digits s) - 4
                              - (Z.of_nat (num_digits s) - 4) / 2) 0)) in *.
  destruct (search_tail_digits nt s) as (pre & tail & Hsplit & -> & Htail & Htend & Hpre);
    [done|lia|done|].
  unfold search_head.
  destruct (groups_enough s nh) as [[head rest] Hg]; [lia|].
  rewrite Hg. simpl.
  destruct (groups_inv _ _ _ _ Hg) as (Hs & Hhead & Hlast).
  assert (num_digits pre = (nh + 4)%nat) as Hpre_digits.
  { rewrite Hsplit, num_digits_app in Hsum. lia. }
  assert (exists middle, pre = (head ++ middle)%list) as [middle ->].
  { rewrite Hs in Hsplit.
    apply app_eq_inv in Hsplit as [(k & Hk & _)|(k & Hk & _)]; [|by exists k].
    rewrite Hk, num_digits_app in Hhead. lia. }
  rewrite num_digits_app in Hpre_digits.
  assert (num_digits middle = 4%nat) as Hmiddle by lia.
  assert (middle <> []) as Hne.
  { intros ->. unfold num_digits in Hmiddle. by simpl in Hmiddle. }
  assert (ends_with_digit middle) as Hmend.
  { destruct Hpre as [Hnil|Hpre].
    - by apply app_eq_nil in Hnil as [_ ?].
    - by apply (ends_with_digit_app head middle). }
  assert (slice_to_minus s (length head) (length tail) = middle) as ->.
  { unfold slice_to_minus.
    assert (length tail <> 0%nat) as Hlen.
    { apply ends_with_digit_has_digit in Htend. destruct tail; [|done].
      unfold num_digits in Htend. simpl in Htend. lia. }
    rewrite (proj2 (Nat.eqb_neq _ _) Hlen), Hsplit, <- app_assoc.
    rewrite drop_app_length, !length_app.
    replace (length head + (length middle + length tail) - length tail - length head)%nat
      with (length middle) by lia.
    apply take_app_length. }
  exists head, middle, tail.
  split; [by rewrite Hsplit, app_assoc|]. split; [done|]. split; [done|].
  split; [unfold nt in Htail; lia|]. split; [lia|].
  split.
  { destruct (Hlast ltac:(lia)) as (m' & c & -> & Hc). exists c. by rewrite last_snoc. }
  split; [done|]. split; [done|].
  transitivity (length ((head ++ middle) ++ tail)%list);
    [rewrite !length_app, length_fmap; lia | by rewrite <- Hsplit].
Qed.

(** X16: a formatted number of at most four digits is drawn as the empty
    text, and one of five digits as its beginning up to the first digit:
    with no tail to keep, the slice [[len(head):-0]] of the middle is empty
    and the rest of the number is lost. *)
Theorem X16_short_number_is_cut s :
  ((num_digits s <= 4)%nat -> obfuscate s = Shown [])
  /\ (num_digits s = 5%nat ->
      exists head rest,
        s = (head ++ rest)%list
        /\ obfuscate s = Shown head
        /\ num_digits head = 1%nat
        /\ ends_with_digit head).
Proof.
  unfold obfuscate, search_head. split.
  - intros Hd.
    replace (Z.to_nat (Z.max ((Z.of_nat (num_digits s) - 4) / 2) 0)) with 0%nat
      by (Z.div_mod_to_equations; lia).
    replace (Z.to_nat (Z.max (Z.of_nat (num_digits s) - 4
                              - (Z.of_nat (num_digits s) - 4) / 2) 0)) with 0%nat
      by (Z.div_mod_to_equations; lia).
    by rewrite search_tail_0, groups_0.
  - intros Hd. rewrite Hd.
    change (Z.to_nat (Z.max ((Z.of_nat 5 - 4) / 2) 0)) with 0%nat.
    change (Z.to_nat (Z.max (Z.of_nat 5 - 4 - (Z.of_nat 5 - 4) / 2) 0)) with 1%nat.
    rewrite search_tail_0.
    destruct (groups_enough s 1) as [[head rest] Hg]; [lia|].
    rewrite Hg. simpl.
    destruct (groups_inv _ _ _ _ Hg) as (Hs & Hhead & Hlast).
    exists head, rest. rewrite app_nil_r. repeat split; try done.
    destruct (Hlast ltac:(lia)) as (m' & c & -> & Hc). exists c. by rewrite last_snoc.
Qed.

(** X17: for a formatted number of six digits or more that ends neither
    with a digit nor with a newline, the search for the tail finds nothing
    and [.group()] raises [AttributeError], which the [except] clause of
    [format_phone_number] does not catch. *)
Theorem X17_trailing_text_raises s c :
  (6 <= num_digits s)%nat ->
  last s = Some c ->
  is_digit c = false ->
  Ascii.nat_of_ascii c <> 10%nat ->
  obfuscate s = AttributeError.
Proof.
  intros Hd Hlast Hc Hnl. unfold obfuscate.
  destruct (halves _ Hd) as (Hnt & _).
  destruct (search_tail _ s) as [tail|] eqn:Hsearch; [|done].
  destruct (search_tail_inv _ _ _ Hsearch) as (pre & r & Hs & Hdollar & Htend).
  destruct Htend as (c' & Hlast' & Hc'); [lia|].
  rewrite Hs, !last_app in Hlast.
  destruct r as [|c0 [|??]]; simpl in *; try done.
  - rewrite Hlast' in Hlast. congruence.
  - apply bool_decide_eq_true in Hdollar. congruence.
Qed.

End OverlayFacts.

(** What is drawn for two numbers as [phonenumbers] formats them. *)
Example obfuscate_uk :
  Overlay.obfuscate (String.list_ascii_of_string "+44 1632 960000")
  = Overlay.Shown (String.list_ascii_of_string "+44 16XX XX0000").
Proof. reflexivity. Qed.

Example obfuscate_us :
  Overlay.obfuscate (String.list_ascii_of_string "+1 650-253-0000")
  = Overlay.Shown (String.list_ascii_of_string "+1 650-XXX-X000").
Proof. reflexivity. Qed.

Lemma X15_middle_four_digits_hidden_witness :
  let s := String.list_ascii_of_string "+44 1632 960000" in
  (6 <= Overlay.num_digits s)%nat
  /\ Overlay.ends_with_digit s
  /\ exists head middle tail,
       s = (head ++ middle ++ tail)%list
       /\ Overlay.obfuscate s = Overlay.Shown (head ++ (Overlay.redact <$> middle) ++ tail)
       /\ Overlay.num_digits middle = 4%nat.
Proof.
  intros s.
  assert (6 <= Overlay.num_digits s)%nat as Hd.
  { apply (bool_decide_unpack _). by vm_compute. }
  assert (Overlay.ends_with_digit s) as Hend.
  { exists (Ascii.ascii_of_nat 48). by split. }
  split; [exact Hd|]. split; [exact Hend|].
  destruct (X15_middle_four_digits_hidden s Hd Hend)
    as (head & middle & tail & Hs & Hshown & Hmiddle & _).
  exists head, middle, tail. split; [exact Hs|]. split; [exact Hshown|exact Hmiddle].
Defined.

Lemma X17_trailing_text_raises_witness :
  let s := String.list_ascii_of_string "+1 650-253-0000 x" in
  (6 <= Overlay.num_digits s)%nat
  /\ last s = Some (Ascii.ascii_of_nat 120)
  /\ Overlay.obfuscate s = Overlay.AttributeError.
Proof.
  intros s.
  assert (6 <= Overlay.num_digits s)%nat as Hd.
  { apply (bool_decide_unpack _). by vm_compute. }
  split; [exact Hd|]. split; [reflexivity|].
  apply (X17_trailing_text_raises s (Ascii.ascii_of_nat 120) Hd);
    [reflexivity | reflexivity | by vm_compute].
Defined.
